(** * Stack machine and assembler: a shallow embedding and its properties

    The development follows [stack-machine.js] (class [StackMachine]) and
    the assembler module (class [Assembly]).  JavaScript numbers that the
    program manipulates are integers, [NaN] or [undefined]; typed arrays are
    lists of integers of fixed length whose reads outside the bounds give
    [undefined] and whose writes outside the bounds do nothing. *)

From Stdlib Require Import ZArith Lia Bool String Ascii.
From stdpp Require Import base list numbers.

Open Scope Z_scope.

(** ** JavaScript values *)

Module JS.

(** The values that flow through the machine.  [-0] is identified with
    [0]: the program only compares numbers, adds them and stores them in
    an [Int8Array], and none of these tells the two zeros apart. *)
Inductive value : Type :=
| Num (z : Z)
| NaN
| undefined.

Definition isUndefined (a : value) : bool :=
  match a with undefined => true | _ => false end.

(** [a + b], [a - b], [a * b] on numbers; [undefined] converts to [NaN]. *)
Definition arith (f : Z -> Z -> Z) (a b : value) : value :=
  match a, b with
  | Num x, Num y => Num (f x y)
  | _, _ => NaN
  end.
Definition add := arith Z.add.
Definition sub := arith Z.sub.
Definition mul := arith Z.mul.

(** [a < b] and [a > b]: any comparison with [NaN] is false. *)
Definition lt (a b : value) : bool :=
  match a, b with Num x, Num y => x <? y | _, _ => false end.
Definition gt (a b : value) : bool := lt b a.
Definition le (a b : value) : bool :=
  match a, b with Num x, Num y => x <=? y | _, _ => false end.
Definition ge (a b : value) : bool := le b a.

(** [a === b]: [NaN] differs from itself, [undefined] equals itself. *)
Definition strictEq (a b : value) : bool :=
  match a, b with
  | Num x, Num y => x =? y
  | undefined, undefined => true
  | _, _ => false
  end.

Definition isInteger (a : value) : bool :=
  match a with Num _ => true | _ => false end.

(** [Math.floor(a / b)] for a divisor that is not the number zero.  On the
    8-bit operands the machine divides, the floating-point quotient is
    exact enough for its floor to be the integer floor. *)
Definition floorDiv (a b : value) : value :=
  match a, b with
  | Num x, Num y => Num (x / y)
  | _, _ => NaN
  end.

(** [a % b]: the remainder takes the sign of the dividend. *)
Definition rem (a b : value) : value :=
  match a, b with
  | Num x, Num y => Num (Z.rem x y)
  | _, _ => NaN
  end.

(** *** [Int8Array] *)

(** Conversion of a value stored into an [Int8Array]. *)
Definition ToInt8 (a : value) : Z :=
  match a with
  | Num z => (z + 128) mod 256 - 128
  | _ => 0
  end.

Definition isInt8 (z : Z) : Prop := -128 <= z <= 127.

(** [a[i]] *)
Definition get (a : list Z) (i : value) : value :=
  match i with
  | Num z =>
      if z <? 0 then undefined
      else match a !! Z.to_nat z with
           | Some x => Num x
           | None => undefined
           end
  | _ => undefined
  end.

(** [a[i] = v] *)
Definition set (a : list Z) (i : value) (v : value) : list Z :=
  match i with
  | Num z => if z <? 0 then a else <[Z.to_nat z := ToInt8 v]> a
  | _ => a
  end.

(** Relative index of [fill]: counted from the end when negative, clamped
    to the array. *)
Definition relativeIndex (len i : Z) : Z :=
  if i <? 0 then Z.max (len + i) 0 else Z.min i len.

(** [a.fill(v, start, end)] *)
Definition fill (a : list Z) (v : value) (start stop : Z) : list Z :=
  let len := Z.of_nat (length a) in
  let k := relativeIndex len start in
  let final := relativeIndex len stop in
  imap (fun i x =>
          if (k <=? Z.of_nat i) && (Z.of_nat i <? final) then ToInt8 v else x)
       a.

(** [a.fill(v)] *)
Definition fillAll (a : list Z) (v : value) : list Z :=
  fill a v 0 (Z.of_nat (length a)).

(** [new Int8Array(n)] *)
Definition newInt8Array (n : Z) : list Z := replicate (Z.to_nat n) 0.

End JS.


(** ** Exceptions and results *)

(** The field of a state change that [#fail] reports. *)
Inductive field : Type :=
| fHalt | fNumStackValuesPopped | fStackValuesPushed
| fMemoryAddressWritten | fMemoryValueWritten | fInstructionPointerDiff.

(** One constructor per [throw] of the program; the JavaScript class of each
    is given by [errorClass]. *)
Inductive exn : Type :=
| InvalidOperationCode (opCode : JS.value)
| InvalidOperationName (name : string)
| ProgramNotInt8Array
| ProgramEmpty
| ProgramTooLarge
| AddressOutOfMemoryBounds (address : JS.value)
| AddressOutOfStackBounds (address : JS.value)
| StackTooSmall (amount : Z)
| Fail (what : field)
| ProgramLengthExceedsMemory
| NullCaptures
| InvalidAssemblyCode (code : string)
| DataValueExceedsRange (index : nat).

Inductive jsClass : Type := RangeError | TypeError | Error.

Definition errorClass (e : exn) : jsClass :=
  match e with
  | InvalidOperationCode _ => RangeError
  | InvalidOperationName _ => Error
  | ProgramNotInt8Array => TypeError
  | ProgramEmpty | ProgramTooLarge => RangeError
  | AddressOutOfMemoryBounds _ => RangeError
  | AddressOutOfStackBounds _ => RangeError
  | StackTooSmall _ => RangeError
  | Fail _ => Error
  | ProgramLengthExceedsMemory => RangeError
  | NullCaptures => TypeError
  | InvalidAssemblyCode _ => Error
  | DataValueExceedsRange _ => RangeError
  end.

Inductive result (A : Type) : Type :=
| Ok (a : A)
| Throw (e : exn).
Arguments Ok {A} a.
Arguments Throw {A} e.

Definition isOk {A} (r : result A) : bool :=
  match r with Ok _ => true | Throw _ => false end.

#[global] Instance result_ret : MRet result := fun A a => Ok a.
#[global] Instance result_bind : MBind result := fun A B k r =>
  match r with
  | Ok a => k a
  | Throw e => Throw e
  end.

#[global] Instance result_fmap : FMap result := fun A B f r =>
  match r with
  | Ok a => Ok (f a)
  | Throw e => Throw e
  end.

(** [if (cond) throw e] *)
Definition throwIf (cond : bool) (e : exn) : result unit :=
  if cond then Throw e else Ok tt.

(** ** The stack machine *)

Module StackMachine.

Import JS.

(** [static operations]: the keys of the object, in their order. *)
Module operations.
Inductive t : Type :=
| halt | noOperation | push | pop | store | load
| add | subtract | multiply | divide
| less | greater | same | different
| and | or | not
| jump | jumpConditionally.

(** [Object.keys(StackMachine.operations)] *)
Definition keys : list t :=
  [ halt; noOperation; push; pop; store; load;
    add; subtract; multiply; divide;
    less; greater; same; different;
    and; or; not;
    jump; jumpConditionally ].

(** The key as a string (each key's value is the key itself). *)
Definition name (o : t) : string :=
  match o with
  | halt => "halt" | noOperation => "noOperation" | push => "push"
  | pop => "pop" | store => "store" | load => "load"
  | add => "add" | subtract => "subtract" | multiply => "multiply"
  | divide => "divide" | less => "less" | greater => "greater"
  | same => "same" | different => "different"
  | and => "and" | or => "or" | not => "not"
  | jump => "jump" | jumpConditionally => "jumpConditionally"
  end%string.
End operations.

Definition getOpNameByCode (opCode : value) : result operations.t :=
  match opCode with
  | Num z =>
      if z <? 0 then Throw (InvalidOperationCode opCode)
      else match operations.keys !! Z.to_nat z with
           | Some opName => Ok opName
           | None => Throw (InvalidOperationCode opCode)
           end
  | _ => Throw (InvalidOperationCode opCode)
  end.

(** [findIndex]: the position of the first element that satisfies [p]. *)
Fixpoint findIndex {A} (p : A -> bool) (l : list A) : option nat :=
  match l with
  | [] => None
  | x :: l' => if p x then Some O else S <$> findIndex p l'
  end.

Definition getOpCodeByName (opName : string) : result Z :=
  match findIndex (fun op => String.eqb (operations.name op) opName)
                  operations.keys with
  | Some opCode => Ok (Z.of_nat opCode)
  | None => Throw (InvalidOperationName opName)
  end.

Definition wordSize : Z := 8.
Definition stackSize : Z := 2 ^ wordSize.
Definition memorySize : Z := 2 ^ wordSize.

(** The private fields of an instance. *)
Record machine : Type := Machine {
  stack : list Z;
  stackCounter : Z;
  memory : list Z;
  instructionPointer : value;
}.

(** A fresh instance. *)
Definition new : machine :=
  {| stack := newInt8Array stackSize;
     stackCounter := 0;
     memory := newInt8Array memorySize;
     instructionPointer := Num 0 |}.

(** What the typed arrays guarantee of every instance: both arrays keep
    their length and hold 8-bit integers. *)
Record wellFormed (m : machine) : Prop := {
  wf_stack_length : length (stack m) = Z.to_nat stackSize;
  wf_memory_length : length (memory m) = Z.to_nat memorySize;
  wf_stack_int8 : Forall isInt8 (stack m);
  wf_memory_int8 : Forall isInt8 (memory m);
}.

Definition isInValueRange (v : value) : bool :=
  isInteger v && JS.le (Num (- 2 ^ (wordSize - 1))) v
              && JS.le v (Num (2 ^ (wordSize - 1) - 1)).

Definition isInAddressRange (address : value) : bool :=
  isInteger address && JS.le (Num 0) address && JS.lt address (Num memorySize).

(** The state change an operation asks for, with the defaults of
    [#defineSafeStateChange] filled in; also the report of a successful
    step. *)
Record stateChange : Type := StateChange {
  halt : bool;
  numStackValuesPopped : Z;
  stackValuesPushed : list value;
  memoryAddressWritten : value;
  memoryValueWritten : value;
  instructionPointerDiff : value;
}.

(** *** Private methods

    None of them assigns a field: each is a function of the instance that
    returns or throws. *)
Module Private.

Definition ensureMemoryBounds (address : value) : result unit :=
  throwIf (JS.lt address (Num 0) || JS.ge address (Num memorySize))
          (AddressOutOfMemoryBounds address).

Definition ensureStackBounds (address : value) : result unit :=
  throwIf (JS.lt address (Num 0) || JS.ge address (Num stackSize))
          (AddressOutOfStackBounds address).

Definition ensureStackCount (this : machine) (amount : Z) : result unit :=
  throwIf (stackCounter this <? amount) (StackTooSmall amount).

Definition isInStackCount (this : machine) (value : Z) : bool :=
  (true && (0 <=? value)) || (value <? stackCounter this).

Definition fail {A} (message : field) : result A := Throw (Fail message).

(** The test [typeof halt !== "boolean"] cannot succeed on a [bool]. *)
Definition defineSafeStateChange (this : machine) (c : stateChange)
  : result stateChange :=
  (if negb (isInStackCount this (numStackValuesPopped c))
   then fail fNumStackValuesPopped else Ok tt);;
  (if negb (forallb isInValueRange (stackValuesPushed c))
   then fail fStackValuesPushed else Ok tt);;
  (if negb (isUndefined (memoryAddressWritten c))
      && negb (isInAddressRange (memoryAddressWritten c))
   then fail fMemoryAddressWritten else Ok tt);;
  (if negb (isUndefined (memoryValueWritten c))
      && negb (isInValueRange (memoryValueWritten c))
   then fail fMemoryValueWritten else Ok tt);;
  (if negb (halt c)
      && negb (isInAddressRange
                 (JS.add (instructionPointer this) (instructionPointerDiff c)))
   then fail fInstructionPointerDiff else Ok tt);;
  Ok c.

(** [this.#stack[this.#stackCounter - k]] *)
Definition peek (this : machine) (k : Z) : value :=
  get (stack this) (Num (stackCounter this - k)).

Definition bit (b : bool) : value := if b then Num 1 else Num 0.

Definition halt (this : machine) : result stateChange :=
  defineSafeStateChange this
    {| StackMachine.halt := true; numStackValuesPopped := 0;
       stackValuesPushed := [];
       memoryAddressWritten := undefined; memoryValueWritten := undefined;
       instructionPointerDiff := undefined |}.

Definition noOperation (this : machine) : result stateChange :=
  defineSafeStateChange this
    {| StackMachine.halt := false; numStackValuesPopped := 0;
       stackValuesPushed := [];
       memoryAddressWritten := undefined; memoryValueWritten := undefined;
       instructionPointerDiff := Num 1 |}.

Definition push (this : machine) : result stateChange :=
  ensureMemoryBounds (JS.add (instructionPointer this) (Num 1));;
  defineSafeStateChange this
    {| StackMachine.halt := false; numStackValuesPopped := 0;
       stackValuesPushed :=
         [get (memory this) (JS.add (instructionPointer this) (Num 1))];
       memoryAddressWritten := undefined; memoryValueWritten := undefined;
       instructionPointerDiff := Num 2 |}.

Definition pop (this : machine) : result stateChange :=
  defineSafeStateChange this
    {| StackMachine.halt := false; numStackValuesPopped := 1;
       stackValuesPushed := [];
       memoryAddressWritten := undefined; memoryValueWritten := undefined;
       instructionPointerDiff := Num 1 |}.

Definition store (this : machine) : result stateChange :=
  ensureStackCount this 2;;
  defineSafeStateChange this
    {| StackMachine.halt := false; numStackValuesPopped := 2;
       stackValuesPushed := [];
       memoryAddressWritten := peek this 1;
       memoryValueWritten := peek this 2;
       instructionPointerDiff := Num 1 |}.

Definition load (this : machine) : result stateChange :=
  ensureStackCount this 1;;
  defineSafeStateChange this
    {| StackMachine.halt := false; numStackValuesPopped := 1;
       stackValuesPushed := [get (memory this) (peek this 1)];
       memoryAddressWritten := undefined; memoryValueWritten := undefined;
       instructionPointerDiff := Num 1 |}.

(** The shape shared by the operations that pop [n] values, push one and
    step to the next instruction. *)
Definition compute (this : machine) (n : Z) (v : value) : result stateChange :=
  ensureStackCount this n;;
  defineSafeStateChange this
    {| StackMachine.halt := false; numStackValuesPopped := n;
       stackValuesPushed := [v];
       memoryAddressWritten := undefined; memoryValueWritten := undefined;
       instructionPointerDiff := Num 1 |}.

Definition add (this : machine) : result stateChange :=
  compute this 2 (JS.add (peek this 1) (peek this 2)).

Definition subtract (this : machine) : result stateChange :=
  compute this 2 (JS.sub (peek this 1) (peek this 2)).

Definition multiply (this : machine) : result stateChange :=
  compute this 2 (JS.mul (peek this 1) (peek this 2)).

Definition divide (this : machine) : result stateChange :=
  ensureStackCount this 2;;
  let dividend := peek this 1 in
  let divisor := peek this 2 in
  let '(quotient, remainder) :=
    if strictEq divisor (Num 0) then (dividend, dividend)
    else (floorDiv dividend divisor, JS.rem dividend divisor) in
  defineSafeStateChange this
    {| StackMachine.halt := false; numStackValuesPopped := 2;
       stackValuesPushed := [remainder; quotient];
       memoryAddressWritten := undefined; memoryValueWritten := undefined;
       instructionPointerDiff := Num 1 |}.

Definition less (this : machine) : result stateChange :=
  compute this 2 (bit (JS.lt (peek this 1) (peek this 2))).

Definition greater (this : machine) : result stateChange :=
  compute this 2 (bit (JS.gt (peek this 1) (peek this 2))).

Definition same (this : machine) : result stateChange :=
  compute this 2 (bit (strictEq (peek this 1) (peek this 2))).

Definition different (this : machine) : result stateChange :=
  compute this 2 (bit (negb (strictEq (peek this 1) (peek this 2)))).

Definition and (this : machine) : result stateChange :=
  compute this 2
    (bit (strictEq (peek this 1) (Num 1) && strictEq (peek this 2) (Num 1))).

Definition or (this : machine) : result stateChange :=
  compute this 2
    (bit (strictEq (peek this 1) (Num 1) || strictEq (peek this 2) (Num 1))).

Definition not (this : machine) : result stateChange :=
  compute this 1 (bit (strictEq (peek this 1) (Num 0))).

Definition jump (this : machine) : result stateChange :=
  ensureStackCount this 1;;
  defineSafeStateChange this
    {| StackMachine.halt := false; numStackValuesPopped := 1;
       stackValuesPushed := [];
       memoryAddressWritten := undefined; memoryValueWritten := undefined;
       instructionPointerDiff :=
         JS.sub (peek this 1) (instructionPointer this) |}.

Definition jumpConditionally (this : machine) : result stateChange :=
  ensureStackCount this 2;;
  defineSafeStateChange this
    {| StackMachine.halt := false; numStackValuesPopped := 2;
       stackValuesPushed := [];
       memoryAddressWritten := undefined; memoryValueWritten := undefined;
       instructionPointerDiff :=
         if strictEq (peek this 1) (Num 1)
         then JS.sub (peek this 2) (instructionPointer this)
         else Num 1 |}.

(** The [default] branch of the [switch] is out of reach of a key of
    [operations]. *)
Definition getOperationByName (opName : operations.t)
  : machine -> result stateChange :=
  match opName with
  | operations.halt => halt
  | operations.noOperation => noOperation
  | operations.push => push
  | operations.pop => pop
  | operations.store => store
  | operations.load => load
  | operations.add => add
  | operations.subtract => subtract
  | operations.multiply => multiply
  | operations.divide => divide
  | operations.less => less
  | operations.greater => greater
  | operations.same => same
  | operations.different => different
  | operations.and => and
  | operations.or => or
  | operations.not => not
  | operations.jump => jump
  | operations.jumpConditionally => jumpConditionally
  end.

End Private.

(** *** Statements that read and assign the fields

    A method body is a function from the instance to an outcome and the
    instance it leaves behind.  An exception does not undo the assignments
    made before it. *)
Definition M (A : Type) : Type := machine -> result A * machine.

Definition pure {A} (a : A) : M A := fun this => (Ok a, this).
Definition throw {A} (e : exn) : M A := fun this => (Throw e, this).
Definition bind {A B} (c : M A) (k : A -> M B) : M B := fun this =>
  match c this with
  | (Ok a, this') => k a this'
  | (Throw e, this') => (Throw e, this')
  end.
Definition read {A} (f : machine -> A) : M A := fun this => (Ok (f this), this).
Definition call {A} (f : machine -> result A) : M A := fun this => (f this, this).
Definition assign (f : machine -> machine) : M unit := fun this => (Ok tt, f this).

#[global] Instance M_ret : MRet M := @pure.
#[global] Instance M_bind : MBind M := fun A B k c => bind c k.

Definition setStack (f : list Z -> list Z) (this : machine) : machine :=
  {| stack := f (stack this); stackCounter := stackCounter this;
     memory := memory this; instructionPointer := instructionPointer this |}.
Definition setStackCounter (c : Z) (this : machine) : machine :=
  {| stack := stack this; stackCounter := c;
     memory := memory this; instructionPointer := instructionPointer this |}.
Definition setMemory (f : list Z -> list Z) (this : machine) : machine :=
  {| stack := stack this; stackCounter := stackCounter this;
     memory := f (memory this); instructionPointer := instructionPointer this |}.
Definition setInstructionPointer (f : value -> value) (this : machine) : machine :=
  {| stack := stack this; stackCounter := stackCounter this;
     memory := memory this; instructionPointer := f (instructionPointer this) |}.

(** *** Public methods *)

(** What a caller may pass to [load]. *)
Inductive argument : Type :=
| Int8Array (words : list Z)
| Uint8Array (words : list Z)
| Array (items : list value)
| Primitive (v : value)
| Text (s : string).

Definition instanceofInt8Array (a : argument) : bool :=
  match a with Int8Array _ => true | _ => false end.

(** [for (let i = ...; i < words.length; i++) this.#memory[i] = words[i]],
    on the words from index [i] on. *)
Fixpoint copyWords (i : Z) (rest : list Z) : M unit :=
  match rest with
  | [] => pure tt
  | w :: rest' =>
      assign (setMemory (fun a => set a (Num i) (Num w)));;
      copyWords (i + 1) rest'
  end.

Definition load (words : argument) : M unit :=
  match words with
  | Int8Array ws =>
      if Z.of_nat (length ws) =? 0 then throw ProgramEmpty
      else if Z.of_nat (length ws) >? memorySize then throw ProgramTooLarge
      else copyWords 0 ws
  | _ => throw ProgramNotInt8Array
  end.

Inductive report : Type :=
| Success (opName : operations.t) (opCode : value) (change : stateChange)
| Failure (error : exn).

Definition success (r : report) : bool :=
  match r with Success _ _ _ => true | Failure _ => false end.

(** [for (const value of stackValuesPushed)
       this.#stack[intermediateStackCounter++] = value] *)
Fixpoint pushValues (values : list value) (intermediateStackCounter : Z)
  : M Z :=
  match values with
  | [] => pure intermediateStackCounter
  | v :: values' =>
      assign (setStack (fun a => set a (Num intermediateStackCounter) v));;
      pushValues values' (intermediateStackCounter + 1)
  end.

(** The assignments of [execute], once the operation has returned its
    state change. *)
Definition applyChange (c : stateChange) : M unit :=
  counter ← read stackCounter;
  let intermediateStackCounter := counter - numStackValuesPopped c in
  assign (setStack (fun a => fill a (Num 0) intermediateStackCounter counter));;
  intermediateStackCounter ←
    pushValues (stackValuesPushed c) intermediateStackCounter;
  assign (setStackCounter intermediateStackCounter);;
  (if negb (isUndefined (memoryAddressWritten c))
   then assign (setMemory (fun a =>
                  set a (memoryAddressWritten c) (memoryValueWritten c)))
   else pure tt);;
  assign (setInstructionPointer (fun ip =>
            JS.add ip (instructionPointerDiff c))).

(** The body of the [try] block of [execute]. *)
Definition tryExecute : M report :=
  opCode ← read (fun this => get (memory this) (instructionPointer this));
  opName ← call (fun _ => getOpNameByCode opCode);
  let op := Private.getOperationByName opName in
  c ← call op;
  applyChange c;;
  pure (Success opName opCode c).

(** [execute]: the [catch] turns an exception into a failure report and
    keeps the instance as the exception left it. *)
Definition execute (this : machine) : report * machine :=
  match tryExecute this with
  | (Ok r, this') => (r, this')
  | (Throw error, this') => (Failure error, this')
  end.

Definition reset : M unit :=
  assign (setStack (fun a => fillAll a (Num 0)));;
  assign (setStackCounter 0);;
  assign (setMemory (fun a => fillAll a (Num 0)));;
  assign (setInstructionPointer (fun _ => Num 0)).

End StackMachine.

(** ** The assembler *)

Module Assembly.

Import JS.

Local Open Scope string_scope.
Local Open Scope Z_scope.

(** Program text is a string of code units below 256. *)

(** [static mnemonics], as [Object.entries] lists it. *)
Definition mnemonics : list (StackMachine.operations.t * string) :=
  [ (StackMachine.operations.halt, "ha");
    (StackMachine.operations.noOperation, "no");
    (StackMachine.operations.push, "pu");
    (StackMachine.operations.pop, "po");
    (StackMachine.operations.store, "st");
    (StackMachine.operations.load, "lo");
    (StackMachine.operations.add, "ad");
    (StackMachine.operations.subtract, "su");
    (StackMachine.operations.multiply, "mu");
    (StackMachine.operations.divide, "di");
    (StackMachine.operations.less, "le");
    (StackMachine.operations.greater, "gr");
    (StackMachine.operations.same, "sa");
    (StackMachine.operations.different, "df");
    (StackMachine.operations.and, "an");
    (StackMachine.operations.or, "or");
    (StackMachine.operations.not, "nt");
    (StackMachine.operations.jump, "ju");
    (StackMachine.operations.jumpConditionally, "jc") ].

Definition code_of (c : ascii) : N := N_of_ascii c.
Definition between (lo hi : N) (c : ascii) : bool :=
  ((lo <=? code_of c) && (code_of c <=? hi))%N.

(** White space and line terminators, as [trim] and the class [\s] see
    them: tab, line feed, vertical tab, form feed, carriage return, space
    and no-break space. *)
Definition isSpace (c : ascii) : bool :=
  between 9 13 c || (code_of c =? 32)%N || (code_of c =? 160)%N.

Definition isLineFeed (c : ascii) : bool := (code_of c =? 10)%N.

Definition isDigit (c : ascii) : bool := between 48 57 c.

(** The class [[\w\d-]]: letters, digits, underscore and hyphen. *)
Definition isCodeChar (c : ascii) : bool :=
  between 65 90 c || between 97 122 c || isDigit c
  || (code_of c =? 95)%N || (code_of c =? 45)%N.

Definition isEmpty (s : string) : bool :=
  match s with EmptyString => true | String _ _ => false end.

(** [s.split("\n")] *)
Fixpoint split (s : string) : list string :=
  match s with
  | EmptyString => [EmptyString]
  | String c s' =>
      if isLineFeed c then EmptyString :: split s'
      else match split s' with
           | first :: others => String c first :: others
           | [] => [String c EmptyString]
           end
  end.

Fixpoint trimStart (s : string) : string :=
  match s with
  | EmptyString => EmptyString
  | String c s' => if isSpace c then trimStart s' else s
  end.

Fixpoint trimEnd (s : string) : string :=
  match s with
  | EmptyString => EmptyString
  | String c s' =>
      let t := trimEnd s' in
      if isSpace c && isEmpty t then EmptyString else String c t
  end.

Definition trim (s : string) : string := trimEnd (trimStart s).

(** *** The pattern [/\s*([\w\d-]+)\s*(#([^\n]+))?/]

    The pieces are matched greedily.  No choice is ever revisited at a given
    start: white space, code characters and [#] are disjoint classes, and
    what follows the code can match the empty string. *)

(** [[\w\d-]+], greedy: the run of code characters and what follows. *)
Fixpoint takeCode (s : string) : string * string :=
  match s with
  | EmptyString => (EmptyString, EmptyString)
  | String c s' =>
      if isCodeChar c
      then let '(run, rest) := takeCode s' in (String c run, rest)
      else (EmptyString, s)
  end.

(** [[^\n]+], greedy. *)
Fixpoint takeLine (s : string) : string :=
  match s with
  | EmptyString => EmptyString
  | String c s' => if isLineFeed c then EmptyString else String c (takeLine s')
  end.

(** [(#([^\n]+))?]: the third capture, [None] when the group takes no
    part in the match. *)
Definition matchComment (s : string) : option string :=
  match s with
  | String "#" rest =>
      if isEmpty (takeLine rest) then None else Some (takeLine rest)
  | _ => None
  end.

(** A match of the pattern that starts at the head of [s]: the first and
    the third capture. *)
Definition matchHere (s : string) : option (string * option string) :=
  let '(code, rest) := takeCode (trimStart s) in
  if isEmpty code then None
  else Some (code, matchComment (trimStart rest)).

(** [pattern.exec(s)]: the match at the leftmost start that has one. *)
Fixpoint exec (s : string) : option (string * option string) :=
  match matchHere s with
  | Some captures => Some captures
  | None =>
      match s with
      | EmptyString => None
      | String _ s' => exec s'
      end
  end.

(** *** [parseInt] *)

Definition digitValue (c : ascii) : option Z :=
  if isDigit c then Some (Z.of_N (code_of c) - 48)
  else if between 97 122 c then Some (Z.of_N (code_of c) - 87)
  else if between 65 90 c then Some (Z.of_N (code_of c) - 55)
  else None.

(** The longest prefix of digits of the radix, read as a number; [None]
    when it is empty. *)
Fixpoint digits (radix : Z) (s : string) (seen : option Z) : option Z :=
  match s with
  | EmptyString => seen
  | String c s' =>
      match digitValue c with
      | Some d =>
          if d <? radix
          then digits radix s' (Some (default 0 seen * radix + d))
          else seen
      | None => seen
      end
  end.

(** [parseInt(s)] without a radix.  The result is the exact integer the
    digits denote.  The program's number is the double nearest to it, or an
    infinity: the same integer up to a magnitude of [2 ^ 53], and beyond
    that a number that is, like the integer, outside the range of a word.
    Statements about the value of a node are made within these bounds. *)
Definition parseInt (s : string) : value :=
  let s := trimStart s in
  let '(sign, s) :=
    match s with
    | String "-" s' => (-1, s')
    | String "+" s' => (1, s')
    | _ => (1, s)
    end in
  let '(radix, s) :=
    match s with
    | String "0" (String "x" s') => (16, s')
    | String "0" (String "X" s') => (16, s')
    | _ => (10, s)
    end in
  match digits radix s None with
  | Some n => Num (sign * n)
  | None => NaN
  end.

Definition isNaN (v : value) : bool :=
  match v with Num _ => false | _ => true end.

(** *** Parse tree *)

Record node : Type := Node {
  code : string;
  type : string;
  value : JS.value;
  comment : option string;
}.

(** [array.map(f)] for an [f] that may throw: the first exception ends the
    traversal. *)
Fixpoint mapWithIndex {A B} (f : A -> nat -> result B) (index : nat)
  (l : list A) : result (list B) :=
  match l with
  | [] => Ok []
  | x :: l' =>
      y ← f x index;
      ys ← mapWithIndex f (S index) l';
      Ok (y :: ys)
  end.

Definition tokenize (line : string) (_ : nat) : result (string * option string) :=
  match exec line with
  | Some (code, comment) => Ok (code, comment)
  | None => Throw NullCaptures
  end.

Definition classify (token : string * option string) (_ : nat) : result node :=
  let '(code, comment) := token in
  if negb (isNaN (parseInt code))
  then Ok {| code := code; type := "data"; value := parseInt code;
             comment := comment |}
  else
    match List.find (fun '(_, mnemonic) => String.eqb code mnemonic) mnemonics with
    | Some (opName, _) =>
        Ok {| code := code; type := StackMachine.operations.name opName;
              value := undefined; comment := comment |}
    | None => Throw (InvalidAssemblyCode code)
    end.

Definition lines (programText : string) : list string :=
  List.filter (fun line => negb (isEmpty line)) (List.map trim (split programText)).

Definition parseProgram (programText : string) : result (list node) :=
  let lines := lines programText in
  throwIf (Z.of_nat (length lines) >? StackMachine.memorySize)
          ProgramLengthExceedsMemory;;
  lineTokens ← mapWithIndex tokenize O lines;
  mapWithIndex classify O lineTokens.

Definition generateInstructions (parseTree : list node) : result (list Z) :=
  words ← mapWithIndex
            (fun n index =>
               if String.eqb (type n) "data" then
                 throwIf (negb (StackMachine.isInValueRange (value n)))
                         (DataValueExceedsRange index);;
                 Ok (value n)
               else Num <$> StackMachine.getOpCodeByName (type n))
            O parseTree;
  Ok (List.map ToInt8 words).

End Assembly.

(** ** The controller of the page *)

Module Controller.

(** [array.join(separator)] *)
Fixpoint join (separator : string) (l : list string) : string :=
  match l with
  | [] => EmptyString
  | [x] => x
  | x :: rest => (x ++ separator ++ join separator rest)%string
  end.

Definition lineFeed : string := String "010" EmptyString.

(** [#unindentProgram]: the empty lines are dropped, the others trimmed and
    joined again. *)
Definition unindentProgram (program : string) : string :=
  join lineFeed
       (List.map Assembly.trim
          (List.filter (fun line => negb (Assembly.isEmpty line))
                       (Assembly.split program))).

End Controller.

(** ** Vocabulary of the properties *)

Module Props.

Import JS StackMachine.

(** The stack after the values are written from slot [k] upwards. *)
Fixpoint pushList (a : list Z) (k : Z) (values : list value) : list Z :=
  match values with
  | [] => a
  | v :: values' => pushList (set a (Num k) v) (k + 1) values'
  end.

(** The instance after the assignments of [execute] for the change [c]. *)
Definition committed (c : stateChange) (this : machine) : machine :=
  let counter := stackCounter this in
  let intermediate := counter - numStackValuesPopped c in
  {| stack := pushList (fill (stack this) (Num 0) intermediate counter)
                       intermediate (stackValuesPushed c);
     stackCounter := intermediate + Z.of_nat (length (stackValuesPushed c));
     memory := if negb (isUndefined (memoryAddressWritten c))
               then set (memory this) (memoryAddressWritten c)
                        (memoryValueWritten c)
               else memory this;
     instructionPointer :=
       JS.add (instructionPointer this) (instructionPointerDiff c) |}.

Definition isInt8b (z : Z) : bool := (-128 <=? z) && (z <=? 127).

Definition wellFormedb (this : machine) : bool :=
  (length (stack this) =? Z.to_nat stackSize)%nat
  && (length (memory this) =? Z.to_nat memorySize)%nat
  && forallb isInt8b (stack this)
  && forallb isInt8b (memory this).

(** The operation under the instruction pointer. *)
Definition decode (this : machine) : result operations.t :=
  getOpNameByCode (get (memory this) (instructionPointer this)).

(** The instance after [n] calls of [execute]. *)
Definition steps (n : nat) (this : machine) : machine :=
  Nat.iter n (fun m => snd (execute m)) this.

(** The instances a caller can bring about. *)
Inductive reachable : machine -> Prop :=
| reachable_new : reachable new
| reachable_load m words : reachable m -> reachable (snd (load words m))
| reachable_execute m : reachable m -> reachable (snd (execute m))
| reachable_reset m : reachable m -> reachable (snd (reset m)).

(** Every slot of the stack from the counter upwards holds zero. *)
Definition zeroAbove (this : machine) : Prop :=
  forall (i : nat) (x : Z),
    stackCounter this <= Z.of_nat i -> stack this !! i = Some x -> x = 0.

(** The stack checks an operation makes before it builds its change. *)
Definition precondition (o : operations.t) (this : machine) : result unit :=
  match o with
  | operations.halt | operations.noOperation | operations.pop => Ok tt
  | operations.push =>
      Private.ensureMemoryBounds (JS.add (instructionPointer this) (Num 1))
  | operations.load | operations.not | operations.jump =>
      Private.ensureStackCount this 1
  | _ => Private.ensureStackCount this 2
  end.

Definition change (n : Z) (pushed : list value) (diff : value) : stateChange :=
  {| halt := false; numStackValuesPopped := n; stackValuesPushed := pushed;
     memoryAddressWritten := undefined; memoryValueWritten := undefined;
     instructionPointerDiff := diff |}.

(** The change an operation hands to [#defineSafeStateChange]. *)
Definition requested (o : operations.t) (this : machine) : stateChange :=
  let top := Private.peek this 1 in
  let second := Private.peek this 2 in
  let ip := instructionPointer this in
  match o with
  | operations.halt =>
      {| halt := true; numStackValuesPopped := 0; stackValuesPushed := [];
         memoryAddressWritten := undefined; memoryValueWritten := undefined;
         instructionPointerDiff := undefined |}
  | operations.noOperation => change 0 [] (Num 1)
  | operations.push => change 0 [get (memory this) (JS.add ip (Num 1))] (Num 2)
  | operations.pop => change 1 [] (Num 1)
  | operations.store =>
      {| halt := false; numStackValuesPopped := 2; stackValuesPushed := [];
         memoryAddressWritten := top; memoryValueWritten := second;
         instructionPointerDiff := Num 1 |}
  | operations.load => change 1 [get (memory this) top] (Num 1)
  | operations.add => change 2 [JS.add top second] (Num 1)
  | operations.subtract => change 2 [JS.sub top second] (Num 1)
  | operations.multiply => change 2 [JS.mul top second] (Num 1)
  | operations.divide =>
      change 2 (if strictEq second (Num 0) then [top; top]
                else [JS.rem top second; floorDiv top second]) (Num 1)
  | operations.less => change 2 [Private.bit (JS.lt top second)] (Num 1)
  | operations.greater => change 2 [Private.bit (JS.gt top second)] (Num 1)
  | operations.same => change 2 [Private.bit (strictEq top second)] (Num 1)
  | operations.different =>
      change 2 [Private.bit (negb (strictEq top second))] (Num 1)
  | operations.and =>
      change 2 [Private.bit (strictEq top (Num 1) && strictEq second (Num 1))]
             (Num 1)
  | operations.or =>
      change 2 [Private.bit (strictEq top (Num 1) || strictEq second (Num 1))]
             (Num 1)
  | operations.not => change 1 [Private.bit (strictEq top (Num 0))] (Num 1)
  | operations.jump => change 1 [] (JS.sub top ip)
  | operations.jumpConditionally =>
      change 2 [] (if strictEq top (Num 1) then JS.sub second ip else Num 1)
  end.

(** *** Source lines *)

(** The shape the assembler's documentation gives a line: a token of word,
    digit and hyphen characters, after it at most white space and a comment
    that [#] introduces and that runs to the end of the line. *)
Definition hasLineShape (line : string) : bool :=
  let '(token, rest) := Assembly.takeCode line in
  negb (Assembly.isEmpty token)
  && match Assembly.trimStart rest with
     | EmptyString => true
     | String c _ => Ascii.eqb c "#"
     end.

(** The first run of code characters of a line, wherever it starts. *)
Fixpoint firstCode (s : string) : option string :=
  match s with
  | EmptyString => None
  | String c s' =>
      if Assembly.isCodeChar c then Some (fst (Assembly.takeCode s))
      else firstCode s'
  end.

(** The text holds a line feed. *)
Fixpoint hasLineFeed (s : string) : bool :=
  match s with
  | EmptyString => false
  | String c s' => Assembly.isLineFeed c || hasLineFeed s'
  end.

(** The code is one of the mnemonics. *)
Definition isMnemonic (code : string) : bool :=
  existsb (fun '(_, mnemonic) => String.eqb code mnemonic) Assembly.mnemonics.

(** *** Sample instances *)

(** The instance that holds the single instruction [pop]. *)
Definition popOnly : machine := snd (load (Int8Array [3]) new).

(** A full stack with a [push] at the start of the memory. *)
Definition fullAtStart : machine :=
  {| stack := replicate 256 7; stackCounter := 256;
     memory := [2; 42] ++ replicate 254 0; instructionPointer := Num 0 |}.

(** A full stack with a [push] in the last two cells of the memory. *)
Definition fullAtEnd : machine :=
  {| stack := replicate 256 7; stackCounter := 256;
     memory := replicate 254 0 ++ [2; 42];
     instructionPointer := Num 254 |}.

(** The instance after [program] is loaded into a fresh one and [n] steps
    are made. *)
Definition after (program : list Z) (n : nat) : machine :=
  steps n (snd (load (Int8Array program) new)).

(** *** Operations by their use of the stack *)

(** The number of values an operation asks [#ensureStackCount] for; zero for
    the operations that do not ask. *)
Definition required (o : operations.t) : Z :=
  match o with
  | operations.halt | operations.noOperation
  | operations.push | operations.pop => 0
  | operations.load | operations.not | operations.jump => 1
  | _ => 2
  end.

(** What a successful step adds to the stack counter: the values pushed less
    the values popped. *)
Definition netEffect (o : operations.t) : Z :=
  match o with
  | operations.halt | operations.noOperation => 0
  | operations.push => 1
  | operations.pop => -1
  | operations.store => -2
  | operations.load | operations.not | operations.divide => 0
  | operations.jump => -1
  | operations.jumpConditionally => -2
  | _ => -1
  end.

Definition flag (b : bool) : Z := if b then 1 else 0.

(** The value that an operation of two operands pushes, from the top and
    the second value of the stack. *)
Definition binary (o : operations.t) : option (Z -> Z -> Z) :=
  match o with
  | operations.add => Some (fun top second => top + second)
  | operations.subtract => Some (fun top second => top - second)
  | operations.multiply => Some (fun top second => top * second)
  | operations.less => Some (fun top second => flag (top <? second))
  | operations.greater => Some (fun top second => flag (second <? top))
  | operations.same => Some (fun top second => flag (top =? second))
  | operations.different => Some (fun top second => flag (negb (top =? second)))
  | operations.and =>
      Some (fun top second => flag ((top =? 1) && (second =? 1)))
  | operations.or =>
      Some (fun top second => flag ((top =? 1) || (second =? 1)))
  | _ => None
  end.

(** The comparisons and the logical operations of two operands. *)
Definition isTest (o : operations.t) : bool :=
  match o with
  | operations.less | operations.greater | operations.same
  | operations.different | operations.and | operations.or => true
  | _ => false
  end.

(** The instance with another instruction pointer. *)
Definition withInstructionPointer (ip : value) (this : machine) : machine :=
  {| stack := stack this; stackCounter := stackCounter this;
     memory := memory this; instructionPointer := ip |}.

(** *** Parse trees *)

(** The node that a line of the given first code yields.  A data node
    holds the integer its code starts with when the magnitude of the integer
    is at most [2 ^ 53], where numbers are exact; beyond that it holds a
    number outside the range of a word. *)
Definition nodeOf (line : string) (n : Assembly.node) : Prop :=
  firstCode line = Some (Assembly.code n)
  /\ ((Assembly.isNaN (Assembly.parseInt (Assembly.code n)) = false
       /\ Assembly.type n = "data"%string
       /\ forall z : Z,
           Assembly.parseInt (Assembly.code n) = Num z ->
           (Z.abs z <= 2 ^ 53 -> Assembly.value n = Num z)
           /\ (2 ^ 53 < Z.abs z ->
               isInValueRange (Assembly.value n) = false))
      \/ (Assembly.isNaN (Assembly.parseInt (Assembly.code n)) = true
          /\ exists o, In (o, Assembly.code n) Assembly.mnemonics
                       /\ Assembly.type n = operations.name o
                       /\ Assembly.value n = undefined)).

(** The word that code generation emits for a node. *)
Definition emits (n : Assembly.node) (w : Z) : Prop :=
  if String.eqb (Assembly.type n) "data"
  then Assembly.value n = Num w /\ isInt8 w
  else getOpCodeByName (Assembly.type n) = Ok w.

(** Parsing, then code generation. *)
Definition assemble (programText : string) : result (list Z) :=
  tree ← Assembly.parseProgram programText;
  Assembly.generateInstructions tree.

(** The text holds white space only. *)
Fixpoint allSpace (s : string) : bool :=
  match s with
  | EmptyString => true
  | String c s' => Assembly.isSpace c && allSpace s'
  end.

(** Reduces the fields of a state change that is written out. *)
Ltac fields :=
  cbn [length change halt numStackValuesPopped stackValuesPushed
       memoryAddressWritten memoryValueWritten instructionPointerDiff
       isUndefined negb fmap list_fmap forallb app drop replicate].

End Props.

(** ** Properties of the stack machine *)

Import JS StackMachine Props.

Lemma requested_shape (o : operations.t) (this : machine) :
  Private.getOperationByName o this =
  (precondition o this;;
   Private.defineSafeStateChange this (requested o this)).
Proof.
  destruct o; try reflexivity.
  unfold Private.getOperationByName, Private.divide, precondition, requested.
  destruct (Private.ensureStackCount this 2) as [[]|e]; [|reflexivity].
  destruct (strictEq (Private.peek this 2) (Num 0)); reflexivity.
Qed.

(** *** The assignments of [execute] never throw *)

Lemma pushValues_run (values : list value) :
  forall (k : Z) (this : machine),
    pushValues values k this =
    (Ok (k + Z.of_nat (length values)),
     setStack (fun a => pushList a k values) this).
Proof.
  induction values as [|v values IH]; intros k this.
  - cbn. rewrite Z.add_0_r. destruct this; reflexivity.
  - cbn [pushValues]. unfold mbind, M_bind, bind, assign.
    rewrite IH. unfold setStack; cbn [stack stackCounter memory
      instructionPointer pushList length].
    do 2 f_equal. lia.
Qed.

Lemma applyChange_run (c : stateChange) (this : machine) :
  applyChange c this = (Ok tt, committed c this).
Proof.
  unfold applyChange, mbind, M_bind, bind, read, assign.
  rewrite pushValues_run. unfold committed, setStack, setStackCounter,
    setMemory, setInstructionPointer, pure.
  cbn [stack stackCounter memory instructionPointer].
  destruct (negb (isUndefined (memoryAddressWritten c))); reflexivity.
Qed.

(** [execute] in one piece: the operation is fetched, decoded and asked for
    its change on the untouched instance; only then is the change applied. *)
Lemma execute_run (this : machine) :
  execute this =
  match decode this with
  | Throw e => (Failure e, this)
  | Ok o =>
      match Private.getOperationByName o this with
      | Throw e => (Failure e, this)
      | Ok c =>
          (Success o (get (memory this) (instructionPointer this)) c,
           committed c this)
      end
  end.
Proof.
  unfold execute, tryExecute, decode, mbind, M_bind, bind, read, call.
  destruct (getOpNameByCode _) as [o|e]; [|reflexivity].
  destruct (Private.getOperationByName o this) as [c|e]; [|reflexivity].
  rewrite applyChange_run. reflexivity.
Qed.

(** *** Validation *)

Lemma defineSafeStateChange_Ok (this : machine) (c c' : stateChange) :
  Private.defineSafeStateChange this c = Ok c' ->
  c' = c
  /\ Private.isInStackCount this (numStackValuesPopped c) = true
  /\ forallb isInValueRange (stackValuesPushed c) = true
  /\ (isUndefined (memoryAddressWritten c) = true
      \/ isInAddressRange (memoryAddressWritten c) = true)
  /\ (isUndefined (memoryValueWritten c) = true
      \/ isInValueRange (memoryValueWritten c) = true)
  /\ (halt c = true
      \/ isInAddressRange
           (JS.add (instructionPointer this) (instructionPointerDiff c)) = true).
Proof.
  unfold Private.defineSafeStateChange, Private.fail.
  destruct (Private.isInStackCount _ _); cbn; [|discriminate].
  destruct (forallb _ _); cbn; [|discriminate].
  destruct (isUndefined (memoryAddressWritten c)),
           (isInAddressRange (memoryAddressWritten c)); cbn; try discriminate;
  destruct (isUndefined (memoryValueWritten c)),
           (isInValueRange (memoryValueWritten c)); cbn; try discriminate;
  destruct (halt c), (isInAddressRange (JS.add _ _)); cbn; try discriminate;
  intros [= <-]; repeat split; auto.
Qed.

Lemma defineSafeStateChange_valid (this : machine) (c : stateChange) :
  Private.isInStackCount this (numStackValuesPopped c) = true ->
  forallb isInValueRange (stackValuesPushed c) = true ->
  isUndefined (memoryAddressWritten c) = true
  \/ isInAddressRange (memoryAddressWritten c) = true ->
  isUndefined (memoryValueWritten c) = true
  \/ isInValueRange (memoryValueWritten c) = true ->
  halt c = true
  \/ isInAddressRange
       (JS.add (instructionPointer this) (instructionPointerDiff c)) = true ->
  Private.defineSafeStateChange this c = Ok c.
Proof.
  intros H1 H2 H3 H4 H5. unfold Private.defineSafeStateChange.
  rewrite H1, H2. cbn.
  replace (negb (isUndefined (memoryAddressWritten c))
           && negb (isInAddressRange (memoryAddressWritten c))) with false
    by (destruct H3 as [-> | ->]; cbn; rewrite ?andb_false_r; reflexivity).
  replace (negb (isUndefined (memoryValueWritten c))
           && negb (isInValueRange (memoryValueWritten c))) with false
    by (destruct H4 as [-> | ->]; cbn; rewrite ?andb_false_r; reflexivity).
  replace (negb (halt c) && negb (isInAddressRange (JS.add
             (instructionPointer this) (instructionPointerDiff c)))) with false
    by (destruct H5 as [-> | ->]; cbn; rewrite ?andb_false_r; reflexivity).
  reflexivity.
Qed.

Lemma isInValueRange_Num (z : Z) :
  isInValueRange (Num z) = (-128 <=? z) && (z <=? 127).
Proof. reflexivity. Qed.

Lemma isInValueRange_spec (v : value) :
  isInValueRange v = true <-> exists z, v = Num z /\ isInt8 z.
Proof.
  unfold isInt8. destruct v as [z| |]; cbn.
  - rewrite isInValueRange_Num. split.
    + intros H. exists z. split; [reflexivity|lia].
    + intros (z' & [= <-] & H). lia.
  - split; [discriminate|]. intros (z & H & _). discriminate.
  - split; [discriminate|]. intros (z & H & _). discriminate.
Qed.

Lemma isInAddressRange_spec (v : value) :
  isInAddressRange v = true <-> exists z, v = Num z /\ 0 <= z < memorySize.
Proof.
  destruct v as [z| |]; cbn.
  - change (isInAddressRange (Num z)) with (true && (0 <=? z) && (z <? 256)).
    change memorySize with 256. split.
    + intros H. exists z. split; [reflexivity|lia].
    + intros (z' & [= <-] & H). lia.
  - split; [discriminate|]. intros (z & H & _). discriminate.
  - split; [discriminate|]. intros (z & H & _). discriminate.
Qed.

(** *** Typed arrays *)

Lemma ToInt8_range (v : value) : isInt8 (ToInt8 v).
Proof.
  unfold isInt8. destruct v as [z| |]; cbn; try lia.
  pose proof (Z.mod_pos_bound (z + 128) 256 ltac:(lia)). lia.
Qed.

Lemma ToInt8_id (z : Z) : isInt8 z -> ToInt8 (Num z) = z.
Proof.
  unfold isInt8. intros H. cbn. rewrite Z.mod_small by lia. lia.
Qed.

Lemma length_set (a : list Z) (i v : value) : length (set a i v) = length a.
Proof.
  destruct i as [z| |]; cbn; try reflexivity.
  destruct (z <? 0); [reflexivity|]. apply length_insert.
Qed.

Lemma length_fill (a : list Z) (v : value) (start stop : Z) :
  length (fill a v start stop) = length a.
Proof. unfold fill. apply length_imap. Qed.

Lemma length_pushList (values : list value) :
  forall (a : list Z) (k : Z), length (pushList a k values) = length a.
Proof.
  induction values as [|v values IH]; intros a k; cbn [pushList];
    [reflexivity|].
  rewrite IH. apply length_set.
Qed.

Lemma lookup_fill (a : list Z) (v : value) (start stop : Z) (i : nat) :
  fill a v start stop !! i =
  (fun x =>
     if (relativeIndex (Z.of_nat (length a)) start <=? Z.of_nat i)
        && (Z.of_nat i <? relativeIndex (Z.of_nat (length a)) stop)
     then ToInt8 v else x) <$> a !! i.
Proof. unfold fill. apply list_lookup_imap. Qed.

Lemma lookup_set_ne (a : list Z) (k : Z) (v : value) (i : nat) :
  Z.of_nat i <> k -> set a (Num k) v !! i = a !! i.
Proof.
  intros H. cbn. destruct (k <? 0) eqn:E; [reflexivity|].
  apply list_lookup_insert_ne. lia.
Qed.

Lemma lookup_set_eq (a : list Z) (i : nat) (v : value) :
  (i < length a)%nat -> set a (Num (Z.of_nat i)) v !! i = Some (ToInt8 v).
Proof.
  intros H. cbn. destruct (Z.of_nat i <? 0) eqn:E; [lia|].
  rewrite Nat2Z.id. apply list_lookup_insert_eq. exact H.
Qed.

(** Slots outside the written range keep their value. *)
Lemma lookup_pushList_outside (values : list value) :
  forall (a : list Z) (k : Z) (i : nat),
    Z.of_nat i < k \/ k + Z.of_nat (length values) <= Z.of_nat i ->
    pushList a k values !! i = a !! i.
Proof.
  induction values as [|v values IH]; intros a k i H; cbn [pushList];
    [reflexivity|].
  cbn [length] in H. rewrite IH by lia. apply lookup_set_ne. lia.
Qed.

Lemma Forall_set (a : list Z) (i v : value) :
  Forall isInt8 a -> Forall isInt8 (set a i v).
Proof.
  intros H. destruct i as [z| |]; cbn; try exact H.
  destruct (z <? 0); [exact H|].
  apply Forall_insert; [exact H|apply ToInt8_range].
Qed.

Lemma Forall_fill (a : list Z) (v : value) (start stop : Z) :
  Forall isInt8 a -> Forall isInt8 (fill a v start stop).
Proof.
  intros H. apply Forall_lookup. intros i x Hx.
  rewrite lookup_fill in Hx.
  destruct (a !! i) as [y|] eqn:Ey; [|discriminate].
  cbn in Hx. injection Hx as <-.
  destruct (_ && _); [apply ToInt8_range|].
  eapply Forall_lookup_1; eauto.
Qed.

Lemma Forall_pushList (values : list value) :
  forall (a : list Z) (k : Z),
    Forall isInt8 a -> Forall isInt8 (pushList a k values).
Proof.
  induction values as [|v values IH]; intros a k H; cbn [pushList];
    [exact H|].
  apply IH. apply Forall_set. exact H.
Qed.

Lemma get_Num (a : list Z) (z x : Z) :
  get a (Num z) = Num x <-> 0 <= z /\ a !! Z.to_nat z = Some x.
Proof.
  cbn. destruct (z <? 0) eqn:E.
  - split; [discriminate|lia].
  - destruct (a !! Z.to_nat z) as [y|].
    + split; [intros [= ->]|intros [_ [= ->]]]; auto. split; [lia|reflexivity].
    + split; [discriminate|]. intros [_ H]. discriminate.
Qed.

(** A range that holds no slot is filled without effect. *)
Lemma fill_nothing (a : list Z) (v : value) (start stop : Z) :
  relativeIndex (Z.of_nat (length a)) stop
  <= relativeIndex (Z.of_nat (length a)) start ->
  fill a v start stop = a.
Proof.
  intros H. apply list_eq. intros i. rewrite lookup_fill.
  destruct (a !! i) as [x|]; [|reflexivity]. cbn.
  destruct (_ <=? _) eqn:E1, (_ <? _) eqn:E2; cbn; try reflexivity. lia.
Qed.

(** *** Failed steps *)

(** C3. [execute] returns a report for every instance, and when the report
    is a failure, whatever its cause, the stack, the stack counter, the
    memory and the instruction pointer are the ones before the call. *)
Theorem execute_failure_changes_nothing (this : machine) :
  forall (r : report) (this' : machine),
    execute this = (r, this') -> success r = false -> this' = this.
Proof.
  intros r this'. rewrite execute_run.
  destruct (decode this) as [o|e].
  - destruct (Private.getOperationByName o this) as [c|e].
    + intros [= <- <-]. discriminate.
    + intros [= <- <-] _. reflexivity.
  - intros [= <- <-] _. reflexivity.
Qed.

Lemma execute_failure_changes_nothing_witness :
  success (fst (execute (snd (load (Int8Array [6]) new)))) = false
  /\ snd (execute (snd (load (Int8Array [6]) new)))
     = snd (load (Int8Array [6]) new).
Proof.
  split; [reflexivity|].
  apply (execute_failure_changes_nothing
           (snd (load (Int8Array [6]) new))
           (fst (execute (snd (load (Int8Array [6]) new))))).
  - vm_compute. reflexivity.
  - vm_compute. reflexivity.
Defined.

Lemma wellFormedb_true (this : machine) :
  wellFormedb this = true -> wellFormed this.
Proof.
  unfold wellFormedb. rewrite !andb_true_iff, !Nat.eqb_eq.
  intros [[[H1 H2] H3] H4].
  assert (Hb : forall l, forallb isInt8b l = true -> Forall isInt8 l).
  { intros l Hl. apply Forall_forall. intros x Hx.
    rewrite forallb_forall in Hl.
    specialize (Hl x Hx).
    unfold isInt8b in Hl. unfold isInt8. lia. }
  split; auto.
Qed.

(** *** An empty stack under [pop] *)

(** The stack check of [#defineSafeStateChange] accepts any count that is
    not negative, and [#pop] makes no other check. *)
Lemma pop_ignores_stack_count (this : machine) (ip : Z) :
  instructionPointer this = Num ip -> 0 <= ip -> ip + 1 < memorySize ->
  Private.pop this = Ok (change 1 [] (Num 1)).
Proof.
  intros Hip H0 H1. unfold Private.pop.
  apply defineSafeStateChange_valid; cbn; auto.
  right. rewrite Hip. apply isInAddressRange_spec.
  exists (ip + 1). split; [reflexivity|lia].
Qed.

(** C1, as the code behaves.  On the instance that holds the single
    instruction [pop] and an empty stack, [execute] reports success: the
    stack counter becomes [-1] and the instruction pointer advances. *)
Theorem pop_on_empty_stack_succeeds :
  stackCounter popOnly = 0
  /\ decode popOnly = Ok operations.pop
  /\ fst (execute popOnly)
     = Success operations.pop (Num 3) (change 1 [] (Num 1))
  /\ stackCounter (snd (execute popOnly)) = -1
  /\ instructionPointer (snd (execute popOnly)) = Num 1.
Proof. vm_compute. repeat split; reflexivity. Qed.

(** *** [load] *)

Lemma copyWords_run (ws : list Z) :
  forall (i : Z) (this : machine),
    copyWords i ws this =
    (Ok tt, setMemory (fun a => pushList a i (Num <$> ws)) this).
Proof.
  induction ws as [|w ws IH]; intros i this.
  - cbn. destruct this; reflexivity.
  - cbn [copyWords]. unfold mbind, M_bind, bind, assign.
    rewrite IH. reflexivity.
Qed.

(** Writing [ws] from the slot after [before] replaces as many slots. *)
Lemma pushList_words (ws : list Z) :
  forall (before rest : list Z),
    Forall isInt8 ws -> (length ws <= length rest)%nat ->
    pushList (before ++ rest) (Z.of_nat (length before)) (Num <$> ws)
    = before ++ ws ++ drop (length ws) rest.
Proof.
  induction ws as [|w ws IH]; intros before rest Hws Hlen.
  - cbn. rewrite drop_0. reflexivity.
  - destruct rest as [|r rest]; [cbn in Hlen; lia|].
    inversion Hws as [|w' ws' Hw Hws']; subst w' ws'. cbn in Hlen.
    cbn [fmap list_fmap pushList]. cbn [set].
    destruct (Z.ltb_spec (Z.of_nat (length before)) 0) as [E|E];
      [exfalso; lia|].
    rewrite Nat2Z.id, insert_app_r_alt by lia.
    rewrite Nat.sub_diag. cbn [insert list_insert].
    rewrite ToInt8_id by exact Hw.
    replace (before ++ w :: rest) with ((before ++ [w]) ++ rest)
      by (rewrite <- app_assoc; reflexivity).
    replace (Z.of_nat (length before) + 1)
      with (Z.of_nat (length (before ++ [w])))
      by (rewrite length_app; cbn; lia).
    rewrite (IH (before ++ [w]) rest Hws') by lia.
    rewrite <- app_assoc. reflexivity.
Qed.

(** C8. [load] of an [Int8Array] of [n] words, [1 <= n <= memorySize],
    writes word [i] to address [i] for [i < n] and leaves the addresses from
    [n] on, the stack, the stack counter and the instruction pointer as they
    were; with [n = 0] or [n > memorySize] it throws and leaves the instance
    untouched. *)
Theorem load_writes_prefix (ws : list Z) (this : machine) :
  length (memory this) = Z.to_nat memorySize ->
  Forall isInt8 ws ->
  (1 <= Z.of_nat (length ws) <= memorySize ->
   exists this',
     load (Int8Array ws) this = (Ok tt, this')
     /\ (forall i : nat, (i < length ws)%nat -> memory this' !! i = ws !! i)
     /\ (forall i : nat, (length ws <= i)%nat ->
                        memory this' !! i = memory this !! i)
     /\ stack this' = stack this
     /\ stackCounter this' = stackCounter this
     /\ instructionPointer this' = instructionPointer this)
  /\ (Z.of_nat (length ws) = 0 \/ memorySize < Z.of_nat (length ws) ->
      exists e, load (Int8Array ws) this = (Throw e, this)
                /\ errorClass e = RangeError).
Proof.
  intros Hmem Hws. change memorySize with 256 in *. split.
  - intros Hn. unfold load. change memorySize with 256.
    destruct (Z.of_nat (length ws) =? 0) eqn:E0; [lia|].
    destruct (Z.of_nat (length ws) >? 256) eqn:E1; [lia|].
    rewrite copyWords_run. eexists. split; [reflexivity|].
    cbn [setMemory memory stack stackCounter instructionPointer].
    pose proof (pushList_words ws [] (memory this) Hws) as Hp.
    cbn [app length] in Hp. change (Z.of_nat 0) with 0 in Hp.
    rewrite Hp by lia.
    repeat split.
    + intros i Hi. apply lookup_app_l. exact Hi.
    + intros i Hi. rewrite lookup_app_r by exact Hi.
      rewrite lookup_drop. f_equal. lia.
  - intros Hn. unfold load. change memorySize with 256.
    destruct (Z.of_nat (length ws) =? 0) eqn:E0.
    + exists ProgramEmpty. split; reflexivity.
    + destruct (Z.of_nat (length ws) >? 256) eqn:E1; [|lia].
      exists ProgramTooLarge. split; reflexivity.
Qed.

Lemma load_writes_prefix_witness :
  exists this',
    load (Int8Array [2; 42; 17]) new = (Ok tt, this')
    /\ (forall i : nat, (i < 3)%nat -> memory this' !! i = [2; 42; 17] !! i)
    /\ (forall i : nat, (3 <= i)%nat -> memory this' !! i = memory new !! i)
    /\ stack this' = stack new
    /\ stackCounter this' = stackCounter new
    /\ instructionPointer this' = instructionPointer new.
Proof.
  apply (load_writes_prefix [2; 42; 17] new).
  - reflexivity.
  - repeat constructor; unfold isInt8; lia.
  - cbn. unfold memorySize, wordSize. lia.
Defined.

(** C10. [load] of anything that is not an [Int8Array], a plain array of
    numbers for one, throws a [TypeError] and leaves the stack, the stack
    counter, the memory and the instruction pointer as they were. *)
Theorem load_rejects_other_arguments (words : argument) (this : machine) :
  instanceofInt8Array words = false ->
  exists e, load words this = (Throw e, this) /\ errorClass e = TypeError.
Proof.
  intros H. exists ProgramNotInt8Array.
  destruct words; try discriminate; split; reflexivity.
Qed.

Lemma load_rejects_other_arguments_witness :
  exists e,
    load (Array [Num 2; Num 42; Num 17]) new = (Throw e, new)
    /\ errorClass e = TypeError.
Proof.
  apply (load_rejects_other_arguments (Array [Num 2; Num 42; Num 17]) new).
  reflexivity.
Defined.

(** *** Reading and writing single slots *)

Lemma get_set_eq (a : list Z) (k : Z) (v : value) :
  0 <= k < Z.of_nat (length a) ->
  get (set a (Num k) v) (Num k) = Num (ToInt8 v).
Proof.
  intros H. unfold get, set.
  destruct (Z.ltb_spec k 0) as [E|E]; [exfalso; lia|].
  rewrite list_lookup_insert_eq by lia. reflexivity.
Qed.

Lemma get_set_ne (a : list Z) (k j : Z) (v : value) :
  k <> j -> get (set a (Num k) v) (Num j) = get a (Num j).
Proof.
  intros H. unfold get, set.
  destruct (Z.ltb_spec j 0) as [Ej|Ej]; [reflexivity|].
  destruct (Z.ltb_spec k 0) as [Ek|Ek]; [reflexivity|].
  rewrite list_lookup_insert_ne by lia. reflexivity.
Qed.

Lemma get_isInt8 (a : list Z) (i : value) (x : Z) :
  Forall isInt8 a -> get a i = Num x -> isInt8 x.
Proof.
  intros Ha H. destruct i as [z| |]; try discriminate.
  apply get_Num in H as [_ H]. eapply Forall_lookup_1; eauto.
Qed.

Lemma get_in_bounds (a : list Z) (z x : Z) :
  get a (Num z) = Num x -> 0 <= z < Z.of_nat (length a).
Proof.
  intros H. apply get_Num in H as [H0 H]. apply lookup_lt_Some in H. lia.
Qed.

(** *** [push] on a full stack *)

Lemma ensureMemoryBounds_Ok (address : Z) :
  0 <= address < memorySize ->
  Private.ensureMemoryBounds (Num address) = Ok tt.
Proof.
  change memorySize with 256. intros H.
  unfold Private.ensureMemoryBounds, throwIf, JS.ge, JS.le, JS.lt.
  change memorySize with 256.
  destruct (Z.ltb_spec address 0); [exfalso; lia|].
  destruct (Z.leb_spec 256 address); [exfalso; lia|]. reflexivity.
Qed.

Lemma push_run (this : machine) (ip immediate : Z) :
  instructionPointer this = Num ip ->
  0 <= ip -> ip + 2 < memorySize ->
  get (memory this) (Num (ip + 1)) = Num immediate ->
  isInt8 immediate ->
  Private.push this = Ok (change 0 [Num immediate] (Num 2)).
Proof.
  intros Hip H0 H2 Himm Hint. unfold Private.push. rewrite Hip.
  cbn [JS.add arith]. rewrite ensureMemoryBounds_Ok by lia.
  rewrite Himm. cbn [mbind result_bind].
  apply defineSafeStateChange_valid; cbn [change halt numStackValuesPopped
    stackValuesPushed memoryAddressWritten memoryValueWritten
    instructionPointerDiff isUndefined]; auto.
  - cbn [forallb]. rewrite andb_true_r. apply isInValueRange_spec. eauto.
  - right. rewrite Hip. apply isInAddressRange_spec.
    exists (ip + 2). split; [reflexivity|lia].
Qed.

(** The errors a step can report: the invalid code, the address outside the
    memory, the missing values of the stack, and the failed validation. *)
Lemma execute_errors (this : machine) (e : exn) :
  fst (execute this) = Failure e ->
  (exists v, e = InvalidOperationCode v)
  \/ (exists a, e = AddressOutOfMemoryBounds a)
  \/ (exists n, e = StackTooSmall n)
  \/ (exists f, e = Fail f).
Proof.
  rewrite execute_run. unfold decode, getOpNameByCode.
  destruct (get (memory this) (instructionPointer this)) as [z| |];
    try (cbn; intros [= <-]; eauto).
  destruct (z <? 0); [cbn; intros [= <-]; eauto|].
  destruct (operations.keys !! Z.to_nat z) as [o|];
    [|cbn; intros [= <-]; eauto].
  rewrite requested_shape.
  destruct (precondition o this) as [[]|e'] eqn:Hpre;
    cbn [mbind result_bind].
  - unfold Private.defineSafeStateChange, Private.fail.
    destruct (negb (Private.isInStackCount _ _)); cbn [mbind result_bind];
      [cbn; intros [= <-]; eauto 6|].
    destruct (negb (forallb _ _)); cbn [mbind result_bind];
      [cbn; intros [= <-]; eauto 6|].
    destruct (negb (isUndefined (memoryAddressWritten _)) && _);
      cbn [mbind result_bind]; [cbn; intros [= <-]; eauto 6|].
    destruct (negb (isUndefined (memoryValueWritten _)) && _);
      cbn [mbind result_bind]; [cbn; intros [= <-]; eauto 6|].
    destruct (negb (halt _) && _); cbn [mbind result_bind];
      [cbn; intros [= <-]; eauto 6|].
    cbn. discriminate.
  - cbn. intros [= <-]. revert Hpre.
    unfold precondition, Private.ensureStackCount,
      Private.ensureMemoryBounds, throwIf.
    destruct o; try discriminate;
      match goal with
      | |- (if ?b then _ else _) = _ -> _ =>
          destruct b; [intros [= <-]; eauto 6|discriminate]
      end.
Qed.

(** The step of a [push] on a full stack. *)
Lemma full_stack_push_step (this : machine) (ip immediate : Z) :
  wellFormed this ->
  stackCounter this = stackSize ->
  instructionPointer this = Num ip ->
  0 <= ip -> ip + 2 < memorySize ->
  decode this = Ok operations.push ->
  get (memory this) (Num (ip + 1)) = Num immediate ->
  execute this =
  (Success operations.push (get (memory this) (Num ip))
           (change 0 [Num immediate] (Num 2)),
   {| stack := stack this; stackCounter := stackSize + 1;
      memory := memory this; instructionPointer := Num (ip + 2) |}).
Proof.
  intros Hwf Hc Hip H0 H2 Hop Himm.
  rewrite execute_run, Hop. cbn [Private.getOperationByName].
  rewrite (push_run this ip immediate) by
    (eauto using get_isInt8, wf_memory_int8).
  rewrite Hip. f_equal. unfold committed.
  cbn [change numStackValuesPopped stackValuesPushed memoryAddressWritten
       memoryValueWritten instructionPointerDiff isUndefined negb length].
  rewrite Hc, Hip, Z.sub_0_r.
  rewrite fill_nothing by lia.
  cbn [pushList]. unfold set.
  change (stackSize <? 0) with false.
  rewrite list_insert_ge by (rewrite (wf_stack_length this Hwf); lia).
  reflexivity.
Qed.

(** C9, as amended.  No execution path checks the stack for being full:
    no step, on any instance, fails with the error of the stack bounds.
    On an instance whose stack counter equals [stackSize], a [push] whose
    immediate address [IP + 1] and whose next instruction address [IP + 2]
    both lie below [memorySize] reports success; the stack counter becomes
    [stackSize + 1] and no slot of the stack changes. *)
Theorem push_on_full_stack :
  (forall (this : machine) (address : value),
      fst (execute this) <> Failure (AddressOutOfStackBounds address))
  /\ (forall (this : machine) (ip immediate : Z),
        wellFormed this ->
        stackCounter this = stackSize ->
        instructionPointer this = Num ip ->
        0 <= ip -> ip + 2 < memorySize ->
        decode this = Ok operations.push ->
        get (memory this) (Num (ip + 1)) = Num immediate ->
        execute this =
        (Success operations.push (get (memory this) (Num ip))
                 (change 0 [Num immediate] (Num 2)),
         {| stack := stack this; stackCounter := stackSize + 1;
            memory := memory this; instructionPointer := Num (ip + 2) |})).
Proof.
  split.
  - intros this address H.
    apply execute_errors in H as [[v H]|[[a H]|[[n H]|[f H]]]];
      discriminate H.
  - apply full_stack_push_step.
Qed.

Lemma push_on_full_stack_witness :
  execute fullAtStart =
  (Success operations.push (Num 2) (change 0 [Num 42] (Num 2)),
   {| stack := stack fullAtStart; stackCounter := stackSize + 1;
      memory := memory fullAtStart; instructionPointer := Num 2 |}).
Proof.
  apply (proj2 push_on_full_stack fullAtStart 0 42).
  - apply wellFormedb_true. vm_compute. reflexivity.
  - reflexivity.
  - reflexivity.
  - lia.
  - vm_compute. reflexivity.
  - reflexivity.
  - reflexivity.
Defined.

(** C9, as stated, fails twice.  At the last two cells of the memory the
    immediate at address 255 is valid, yet the [push] fails, for the next
    instruction would lie outside the memory.  And an operation does fail
    because the stack is full: in the program that pushes 42, pushes 0 and
    jumps back, the [push] of step 767 finds the stack full, succeeds and
    drops its value; the [jump] that follows reads no operand and fails,
    while the same [jump] succeeds on the first round. *)
Lemma push_before_memory_end_fails :
  (wellFormedb fullAtEnd = true
   /\ stackCounter fullAtEnd = stackSize
   /\ decode fullAtEnd = Ok operations.push
   /\ isInAddressRange (JS.add (instructionPointer fullAtEnd) (Num 1)) = true
   /\ get (memory fullAtEnd) (JS.add (instructionPointer fullAtEnd) (Num 1))
      = Num 42
   /\ execute fullAtEnd = (Failure (Fail fInstructionPointerDiff), fullAtEnd))
  /\ (stackCounter (after [2; 42; 2; 0; 17] 766) = stackSize
      /\ decode (after [2; 42; 2; 0; 17] 766) = Ok operations.push
      /\ fst (execute (after [2; 42; 2; 0; 17] 766))
         = Success operations.push (Num 2) (change 0 [Num 0] (Num 2))
      /\ stack (after [2; 42; 2; 0; 17] 767) = stack (after [2; 42; 2; 0; 17] 766)
      /\ decode (after [2; 42; 2; 0; 17] 767) = Ok operations.jump
      /\ Private.peek (after [2; 42; 2; 0; 17] 767) 1 = undefined
      /\ execute (after [2; 42; 2; 0; 17] 767)
         = (Failure (Fail fInstructionPointerDiff), after [2; 42; 2; 0; 17] 767)
      /\ success (fst (execute (after [2; 42; 2; 0; 17] 2))) = true).
Proof. vm_compute. repeat split; reflexivity. Qed.

(** *** [divide] *)

Lemma quotient_isInt8 (dividend divisor : Z) :
  isInt8 dividend -> isInt8 divisor -> divisor <> 0 ->
  ~ (dividend = -128 /\ divisor = -1) ->
  isInt8 (dividend / divisor).
Proof.
  unfold isInt8. intros Ha Hb Hnz Hov.
  pose proof (Z.div_mod dividend divisor Hnz) as Hdm.
  destruct (Z_lt_le_dec 0 divisor) as [Hpos|Hneg].
  - pose proof (Z.mod_pos_bound dividend divisor Hpos). nia.
  - pose proof (Z.mod_neg_bound dividend divisor ltac:(lia)). nia.
Qed.

Lemma remainder_isInt8 (dividend divisor : Z) :
  isInt8 dividend -> isInt8 divisor -> divisor <> 0 ->
  isInt8 (Z.rem dividend divisor).
Proof.
  unfold isInt8. intros Ha Hb Hnz.
  pose proof (Z.rem_bound_abs dividend divisor Hnz). lia.
Qed.

Lemma ensureStackCount_Ok (this : machine) (amount : Z) :
  amount <= stackCounter this -> Private.ensureStackCount this amount = Ok tt.
Proof.
  intros H. unfold Private.ensureStackCount, throwIf.
  destruct (Z.ltb_spec (stackCounter this) amount); [exfalso; lia|].
  reflexivity.
Qed.

Lemma divide_run (this : machine) (ip dividend divisor : Z) :
  wellFormed this ->
  instructionPointer this = Num ip -> 0 <= ip -> ip + 1 < memorySize ->
  2 <= stackCounter this ->
  Private.peek this 1 = Num dividend ->
  Private.peek this 2 = Num divisor ->
  ~ (dividend = -128 /\ divisor = -1) ->
  Private.divide this =
  Ok (change 2 [Num (if divisor =? 0 then dividend
                     else Z.rem dividend divisor);
                Num (if divisor =? 0 then dividend
                     else dividend / divisor)] (Num 1)).
Proof.
  intros Hwf Hip H0 H1 Hc Htop Hsecond Hov.
  assert (Ha : isInt8 dividend)
    by (eapply get_isInt8; [apply (wf_stack_int8 this Hwf)|exact Htop]).
  assert (Hb : isInt8 divisor)
    by (eapply get_isInt8; [apply (wf_stack_int8 this Hwf)|exact Hsecond]).
  unfold Private.divide. rewrite ensureStackCount_Ok by exact Hc.
  rewrite Htop, Hsecond. cbn [mbind result_bind strictEq floorDiv JS.rem].
  destruct (Z.eqb_spec divisor 0) as [Hz|Hnz];
    (apply defineSafeStateChange_valid;
     cbn [change halt numStackValuesPopped stackValuesPushed
          memoryAddressWritten memoryValueWritten instructionPointerDiff
          isUndefined forallb]; auto;
     [ rewrite andb_true_r; apply andb_true_iff; split;
       apply isInValueRange_spec; eexists; split; try reflexivity
     | right; rewrite Hip; apply isInAddressRange_spec;
       exists (ip + 1); split; [reflexivity|lia] ]).
  - exact Ha.
  - exact Ha.
  - apply remainder_isInt8; assumption.
  - apply quotient_isInt8; assumption.
Qed.

(** The step of a [divide] that passes the validation, with the numbers the
    code computes: the quotient by [Math.floor] and the remainder by [%]. *)
Lemma divide_step (this : machine) (ip dividend divisor : Z) :
  wellFormed this ->
  instructionPointer this = Num ip -> 0 <= ip -> ip + 1 < memorySize ->
  decode this = Ok operations.divide ->
  2 <= stackCounter this ->
  Private.peek this 1 = Num dividend ->
  Private.peek this 2 = Num divisor ->
  ~ (dividend = -128 /\ divisor = -1) ->
  exists this',
    execute this =
    (Success operations.divide (get (memory this) (Num ip))
       (change 2 [Num (if divisor =? 0 then dividend
                       else Z.rem dividend divisor);
                  Num (if divisor =? 0 then dividend
                       else dividend / divisor)] (Num 1)),
     this')
    /\ stackCounter this' = stackCounter this
    /\ Private.peek this' 1
       = Num (if divisor =? 0 then dividend else dividend / divisor)
    /\ Private.peek this' 2
       = Num (if divisor =? 0 then dividend else Z.rem dividend divisor)
    /\ (forall i : nat, Z.of_nat i < stackCounter this - 2 ->
                        stack this' !! i = stack this !! i)
    /\ memory this' = memory this
    /\ instructionPointer this' = Num (ip + 1).
Proof.
  intros Hwf Hip H0 H1 Hop Hc Htop Hsecond Hov.
  pose proof (divide_run this ip dividend divisor
                Hwf Hip H0 H1 Hc Htop Hsecond Hov) as Hrun.
  set (r := if divisor =? 0 then dividend else Z.rem dividend divisor) in *.
  set (q := if divisor =? 0 then dividend else dividend / divisor) in *.
  assert (Hq : isInt8 q /\ isInt8 r).
  { assert (Ha : isInt8 dividend)
      by (eapply get_isInt8; [apply (wf_stack_int8 this Hwf)|exact Htop]).
    assert (Hb : isInt8 divisor)
      by (eapply get_isInt8; [apply (wf_stack_int8 this Hwf)|exact Hsecond]).
    unfold q, r. destruct (Z.eqb_spec divisor 0); split;
      auto using quotient_isInt8, remainder_isInt8. }
  destruct Hq as [Hq Hr].
  pose proof (get_in_bounds _ _ _ Htop) as Hb.
  rewrite execute_run, Hop. cbn [Private.getOperationByName].
  rewrite Hrun, Hip. eexists. split; [reflexivity|].
  unfold committed, Private.peek.
  cbn [change numStackValuesPopped stackValuesPushed memoryAddressWritten
       memoryValueWritten instructionPointerDiff isUndefined negb length
       stack stackCounter memory instructionPointer pushList].
  set (c := stackCounter this) in *.
  set (F := fill (stack this) (Num 0) (c - 2) c).
  assert (HF : length F = length (stack this)) by apply length_fill.
  repeat split.
  - lia.
  - replace (c - 2 + Z.of_nat 2 - 1) with (c - 2 + 1) by lia.
    rewrite get_set_eq by (rewrite length_set; lia).
    rewrite ToInt8_id by exact Hq. reflexivity.
  - replace (c - 2 + Z.of_nat 2 - 2) with (c - 2) by lia.
    rewrite get_set_ne by lia.
    rewrite get_set_eq by lia.
    rewrite ToInt8_id by exact Hr. reflexivity.
  - intros i Hi. rewrite !lookup_set_ne by lia.
    unfold F. rewrite lookup_fill.
    destruct (stack this !! i) as [x|]; [|reflexivity]. cbn [fmap option_fmap option_map].
    unfold relativeIndex.
    destruct (Z.ltb_spec (c - 2) 0); [exfalso; lia|].
    destruct (Z.leb_spec (Z.min (c - 2) (Z.of_nat (length (stack this))))
                (Z.of_nat i)); [exfalso; lia|]. reflexivity.
  - rewrite Hip. reflexivity.
Qed.

(** The remainder of [%] is the modulus that belongs to the floored quotient
    when the operands do not differ in sign, and when the division is
    exact. *)
Lemma rem_agrees_with_mod (a b : Z) :
  b <> 0 ->
  (0 <= a /\ 0 < b) \/ (a <= 0 /\ b < 0) \/ a mod b = 0 ->
  Z.rem a b = a mod b.
Proof.
  intros Hb [[Ha Hb']|[[Ha Hb']|Hd]].
  - apply Z.rem_mod_nonneg; lia.
  - replace a with (- - a) by lia. replace b with (- - b) by lia.
    rewrite Z.rem_opp_opp by lia. rewrite Z.mod_opp_opp by lia.
    rewrite Z.rem_mod_nonneg by lia. reflexivity.
  - rewrite Hd. apply Z.rem_divide; [exact Hb|].
    apply Z.mod_divide; assumption.
Qed.

(** A [divide] whose quotient is no word, or whose next instruction would
    lie outside the memory, fails and leaves the instance as it was. *)
Lemma divide_fails (this : machine) (ip dividend divisor : Z) :
  instructionPointer this = Num ip ->
  decode this = Ok operations.divide ->
  Private.peek this 1 = Num dividend ->
  Private.peek this 2 = Num divisor ->
  (dividend = -128 /\ divisor = -1) \/ memorySize <= ip + 1 ->
  exists e, execute this = (Failure e, this).
Proof.
  intros Hip Hop Htop Hsecond Hbad.
  rewrite execute_run, Hop. cbn [Private.getOperationByName].
  destruct (Private.divide this) as [c|e] eqn:E; [exfalso|eauto].
  revert E. unfold Private.divide.
  destruct (Private.ensureStackCount this 2) as [[]|e];
    cbn [mbind result_bind]; [|discriminate].
  rewrite Htop, Hsecond. cbn [mbind result_bind strictEq floorDiv JS.rem].
  destruct (Z.eqb_spec divisor 0) as [Hz|Hnz]; intros E;
    apply defineSafeStateChange_Ok in E as (_ & _ & Hv & _ & _ & Hp);
    cbn [halt instructionPointerDiff stackValuesPushed] in Hv, Hp;
    (destruct Hp as [Hp|Hp]; [discriminate Hp|]);
    rewrite Hip in Hp;
    apply isInAddressRange_spec in Hp as (z & [= <-] & Hr);
    (destruct Hbad as [[-> ->]|Hout]; [|lia]).
  - discriminate Hz.
  - revert Hv. vm_compute. discriminate.
Qed.

(** C4, as amended.  The stack holds at least two values, the dividend on
    top and the divisor second, both read from the stack array.  When the
    next instruction address [IP + 1] lies below [memorySize] and the pair
    is not dividend [-128], divisor [-1], [divide] pops both and pushes a
    remainder, then the quotient, which ends on top, and the instruction
    pointer advances by one: for a zero divisor both are the dividend;
    otherwise the quotient is the floor of the division, and the remainder
    is [dividend mod divisor] whenever the operands do not differ in sign or
    the division is exact.  For the pair [-128], [-1], and with [IP + 1]
    outside the memory, the step fails and changes nothing. *)
Theorem divide_pushes_remainder_then_quotient
  (this : machine) (ip dividend divisor : Z) :
  wellFormed this ->
  instructionPointer this = Num ip -> 0 <= ip ->
  decode this = Ok operations.divide ->
  2 <= stackCounter this ->
  Private.peek this 1 = Num dividend ->
  Private.peek this 2 = Num divisor ->
  (ip + 1 < memorySize -> ~ (dividend = -128 /\ divisor = -1) ->
   exists (remainder : Z) (this' : machine),
     execute this =
     (Success operations.divide (get (memory this) (Num ip))
        (change 2 [Num remainder;
                   Num (if divisor =? 0 then dividend
                        else dividend / divisor)] (Num 1)),
      this')
     /\ (divisor = 0 -> remainder = dividend)
     /\ (divisor <> 0 ->
         (0 <= dividend /\ 0 < divisor) \/ (dividend <= 0 /\ divisor < 0)
         \/ dividend mod divisor = 0 ->
         remainder = dividend mod divisor)
     /\ stackCounter this' = stackCounter this
     /\ Private.peek this' 1
        = Num (if divisor =? 0 then dividend else dividend / divisor)
     /\ Private.peek this' 2 = Num remainder
     /\ (forall i : nat, Z.of_nat i < stackCounter this - 2 ->
                         stack this' !! i = stack this !! i)
     /\ memory this' = memory this
     /\ instructionPointer this' = Num (ip + 1))
  /\ ((dividend = -128 /\ divisor = -1) \/ memorySize <= ip + 1 ->
      exists e, execute this = (Failure e, this)).
Proof.
  intros Hwf Hip H0 Hop Hc Htop Hsecond. split.
  - intros H1 Hov.
    destruct (divide_step this ip dividend divisor
                Hwf Hip H0 H1 Hop Hc Htop Hsecond Hov)
      as (this' & Hrun & Hcount & Hq & Hr & Hlow & Hmem & Hnext).
    exists (if divisor =? 0 then dividend else Z.rem dividend divisor), this'.
    repeat split; try assumption.
    + intros ->. reflexivity.
    + intros Hnz Hsign. destruct (Z.eqb_spec divisor 0) as [Hz|_];
        [contradiction|]. apply rem_agrees_with_mod; assumption.
  - apply (divide_fails this ip dividend divisor); assumption.
Qed.

Lemma divide_pushes_remainder_then_quotient_witness :
  exists (remainder : Z) (this' : machine),
    execute (after [2; 2; 2; 7; 9] 2) =
    (Success operations.divide (Num 9)
       (change 2 [Num remainder; Num 3] (Num 1)), this')
    /\ (2 = 0 -> remainder = 7)
    /\ (2 <> 0 ->
        (0 <= 7 /\ 0 < 2) \/ (7 <= 0 /\ 2 < 0) \/ 7 mod 2 = 0 ->
        remainder = 7 mod 2)
    /\ stackCounter this' = 2
    /\ Private.peek this' 1 = Num 3
    /\ Private.peek this' 2 = Num remainder
    /\ (forall i : nat, Z.of_nat i < 2 - 2 ->
                        stack this' !! i = stack (after [2; 2; 2; 7; 9] 2) !! i)
    /\ memory this' = memory (after [2; 2; 2; 7; 9] 2)
    /\ instructionPointer this' = Num (4 + 1).
Proof.
  apply (divide_pushes_remainder_then_quotient
           (after [2; 2; 2; 7; 9] 2) 4 7 2).
  - apply wellFormedb_true. vm_compute. reflexivity.
  - vm_compute. reflexivity.
  - lia.
  - vm_compute. reflexivity.
  - vm_compute. discriminate.
  - vm_compute. reflexivity.
  - vm_compute. reflexivity.
  - vm_compute. reflexivity.
  - lia.
Defined.

(** C4, as stated, fails for the dividend [-128] over the divisor [-1], and
    for a [divide] in the last cell of the memory: the stack holds both
    operands, yet the step fails and pops and pushes nothing. *)
Lemma divide_overflow_fails :
  (stackCounter (after [2; -1; 2; -128; 9] 2) = 2
   /\ decode (after [2; -1; 2; -128; 9] 2) = Ok operations.divide
   /\ Private.peek (after [2; -1; 2; -128; 9] 2) 1 = Num (-128)
   /\ Private.peek (after [2; -1; 2; -128; 9] 2) 2 = Num (-1)
   /\ execute (after [2; -1; 2; -128; 9] 2)
      = (Failure (Fail fStackValuesPushed), after [2; -1; 2; -128; 9] 2))
  /\ (stackCounter (after ([2; 2; 2; 6] ++ replicate 251 1 ++ [9]) 253) = 2
      /\ decode (after ([2; 2; 2; 6] ++ replicate 251 1 ++ [9]) 253)
         = Ok operations.divide
      /\ instructionPointer (after ([2; 2; 2; 6] ++ replicate 251 1 ++ [9]) 253)
         = Num 255
      /\ Private.peek (after ([2; 2; 2; 6] ++ replicate 251 1 ++ [9]) 253) 1
         = Num 6
      /\ Private.peek (after ([2; 2; 2; 6] ++ replicate 251 1 ++ [9]) 253) 2
         = Num 2
      /\ execute (after ([2; 2; 2; 6] ++ replicate 251 1 ++ [9]) 253)
         = (Failure (Fail fInstructionPointerDiff),
            after ([2; 2; 2; 6] ++ replicate 251 1 ++ [9]) 253)).
Proof. vm_compute. repeat split; reflexivity. Qed.

(** The remainder is not the one that goes with the floored quotient: for
    [-7] over [2] the step pushes [-1] and [-4]. *)
Lemma divide_remainder_truncates :
  fst (execute (after [2; 2; 2; -7; 9] 2))
  = Success operations.divide (Num 9) (change 2 [Num (-1); Num (-4)] (Num 1))
  /\ (-7) mod 2 = 1.
Proof. vm_compute. split; reflexivity. Qed.

(** *** Values outside the range of a word *)

(** C6. When the operation under the instruction pointer computes a pushed
    value, or a value to write to the memory, that is not a word, the step
    fails and the instance is as before: nothing is stored, truncated or
    not. *)
Theorem value_out_of_range_fails_step (this : machine) (o : operations.t) :
  decode this = Ok o ->
  (exists v, In v (stackValuesPushed (requested o this))
             /\ isInValueRange v = false)
  \/ (isUndefined (memoryValueWritten (requested o this)) = false
      /\ isInValueRange (memoryValueWritten (requested o this)) = false) ->
  exists e, execute this = (Failure e, this).
Proof.
  intros Hop Hbad. rewrite execute_run, Hop, requested_shape.
  destruct (precondition o this) as [[]|e]; cbn [mbind result_bind];
    [|eauto].
  destruct (Private.defineSafeStateChange this (requested o this))
    as [c|e] eqn:E; [|eauto].
  exfalso. apply defineSafeStateChange_Ok in E as (_ & _ & Hf & _ & Hv & _).
  destruct Hbad as [(v & Hin & Hv')|[Hu Hv']].
  - rewrite forallb_forall in Hf. rewrite (Hf v Hin) in Hv'. discriminate.
  - destruct Hv as [Hv|Hv]; congruence.
Qed.

Lemma value_out_of_range_fails_step_witness :
  requested operations.add (after [2; 100; 2; 100; 6] 2)
  = change 2 [Num 200] (Num 1)
  /\ exists e, execute (after [2; 100; 2; 100; 6] 2)
               = (Failure e, after [2; 100; 2; 100; 6] 2).
Proof.
  split; [vm_compute; reflexivity|].
  apply (value_out_of_range_fails_step
           (after [2; 100; 2; 100; 6] 2) operations.add).
  - vm_compute. reflexivity.
  - left. exists (Num 200). split.
    + vm_compute. left. reflexivity.
    + vm_compute. reflexivity.
Defined.

(** What a successful step stores is what the operation computed: every
    pushed value is a word, and it is converted to itself. *)
Lemma successful_step_pushes_words (this this' : machine)
  (o : operations.t) (opCode : value) (c : stateChange) :
  execute this = (Success o opCode c, this') ->
  Forall (fun v => exists z, v = Num z /\ isInt8 z /\ ToInt8 v = z)
         (stackValuesPushed c).
Proof.
  rewrite execute_run. destruct (decode this) as [o'|e]; [|discriminate].
  rewrite requested_shape.
  destruct (precondition o' this) as [[]|e]; cbn [mbind result_bind];
    [|discriminate].
  destruct (Private.defineSafeStateChange this (requested o' this))
    as [c'|e] eqn:E; [|discriminate].
  intros [= <- <- <- <-].
  apply defineSafeStateChange_Ok in E as (-> & _ & Hf & _).
  apply Forall_forall. intros v Hin.
  rewrite forallb_forall in Hf. specialize (Hf v Hin).
  apply isInValueRange_spec in Hf as (z & -> & Hz).
  exists z. auto using ToInt8_id.
Qed.

(** *** The slots above the stack counter *)

Lemma ensureStackCount_inv (this : machine) (amount : Z) :
  Private.ensureStackCount this amount = Ok tt -> amount <= stackCounter this.
Proof.
  unfold Private.ensureStackCount, throwIf.
  destruct (Z.ltb_spec (stackCounter this) amount); [discriminate|]. lia.
Qed.

(** An operation pops no more than the stack holds, unless the stack is
    empty or its counter negative. *)
Lemma operation_pops (o : operations.t) (this : machine) (c : stateChange) :
  Private.getOperationByName o this = Ok c ->
  0 <= numStackValuesPopped c
  /\ (1 <= stackCounter this -> numStackValuesPopped c <= stackCounter this).
Proof.
  rewrite requested_shape.
  destruct (precondition o this) as [[]|e] eqn:Hpre; cbn [mbind result_bind];
    [|discriminate].
  intros Hc. apply defineSafeStateChange_Ok in Hc as (-> & _).
  destruct o; cbn in Hpre |- *;
    try (apply ensureStackCount_inv in Hpre); lia.
Qed.

Lemma wellFormed_committed (c : stateChange) (this : machine) :
  wellFormed this -> wellFormed (committed c this).
Proof.
  intros [H1 H2 H3 H4]. unfold committed. split;
    cbn [stack memory].
  - rewrite length_pushList, length_fill. exact H1.
  - destruct (negb _); [rewrite length_set|]; exact H2.
  - apply Forall_pushList, Forall_fill, H3.
  - destruct (negb _); [apply Forall_set|]; exact H4.
Qed.

Lemma zeroAbove_committed (o : operations.t) (c : stateChange)
  (this : machine) :
  Private.getOperationByName o this = Ok c ->
  zeroAbove this -> zeroAbove (committed c this).
Proof.
  intros Hop Hz i x. unfold committed. cbn [stack stackCounter].
  apply operation_pops in Hop as [Hn Hle].
  set (n := numStackValuesPopped c) in *.
  set (k := stackCounter this) in *.
  intros Hi. rewrite lookup_pushList_outside by lia.
  rewrite lookup_fill.
  destruct (stack this !! i) as [y|] eqn:Ey; [|discriminate].
  cbn [fmap option_fmap option_map].
  pose proof (lookup_lt_Some _ _ _ Ey) as Hlen.
  destruct (_ && _) eqn:E; intros [= <-]; [reflexivity|].
  destruct (Z_le_gt_dec k (Z.of_nat i)) as [Hki|Hki].
  - exact (Hz i y Hki Ey).
  - exfalso. apply andb_false_iff in E. unfold relativeIndex in E.
    destruct (Z.ltb_spec (k - n) 0); [lia|].
    destruct (Z.ltb_spec k 0); [lia|].
    destruct E as [E|E]; [apply Z.leb_gt in E|apply Z.ltb_ge in E]; lia.
Qed.

Lemma lookup_fillAll (a : list Z) (i : nat) (x : Z) :
  fillAll a (Num 0) !! i = Some x -> x = 0.
Proof.
  unfold fillAll. rewrite lookup_fill.
  destruct (a !! i) as [y|] eqn:Ey; [|discriminate].
  pose proof (lookup_lt_Some _ _ _ Ey) as Hlen.
  cbn [fmap option_fmap option_map]. unfold relativeIndex.
  change (0 <? 0) with false.
  destruct (Z.ltb_spec (Z.of_nat (length a)) 0); [lia|].
  rewrite Z.min_id.
  destruct (Z.leb_spec (Z.min 0 (Z.of_nat (length a))) (Z.of_nat i)); [|lia].
  destruct (Z.ltb_spec (Z.of_nat i) (Z.of_nat (length a))); [|lia].
  intros [= <-]. reflexivity.
Qed.

Lemma load_stack (words : argument) (this : machine) :
  stack (snd (load words this)) = stack this
  /\ stackCounter (snd (load words this)) = stackCounter this
  /\ length (memory (snd (load words this))) = length (memory this)
  /\ (Forall isInt8 (memory this) ->
      Forall isInt8 (memory (snd (load words this)))).
Proof.
  destruct words as [ws| | | |]; try (cbn; auto; fail).
  unfold load.
  destruct (_ =? 0); [cbn; auto|].
  destruct (_ >? _); [cbn; auto|].
  rewrite copyWords_run. cbn [snd setMemory stack stackCounter memory].
  repeat split.
  - apply length_pushList.
  - apply Forall_pushList.
Qed.

Lemma reset_run (this : machine) :
  reset this =
  (Ok tt,
   {| stack := fillAll (stack this) (Num 0); stackCounter := 0;
      memory := fillAll (memory this) (Num 0);
      instructionPointer := Num 0 |}).
Proof. reflexivity. Qed.

(** What every call keeps: the typed arrays stay what they are, and the
    slots from the stack counter upwards hold zero. *)
Lemma reachable_invariant (this : machine) :
  reachable this -> wellFormed this /\ zeroAbove this.
Proof.
  induction 1 as [|m words Hm [Hwf Hz]|m Hm [Hwf Hz]|m Hm [Hwf Hz]].
  - split; [apply wellFormedb_true; vm_compute; reflexivity|].
    intros i x _ Hx. cbn in Hx.
    apply lookup_replicate in Hx as [-> _]. reflexivity.
  - destruct (load_stack words m) as (Hs & Hc & Hl & Hf).
    destruct Hwf as [H1 H2 H3 H4]. split.
    + split; rewrite ?Hs, ?Hl; auto.
    + intros i x. rewrite Hs, Hc. apply Hz.
  - rewrite execute_run.
    destruct (decode m) as [o|e]; [|auto].
    destruct (Private.getOperationByName o m) as [c|e] eqn:Hop; [|auto].
    cbn [snd]. split.
    + apply wellFormed_committed, Hwf.
    + eapply zeroAbove_committed; eauto.
  - destruct Hwf as [H1 H2 H3 H4]. rewrite reset_run. cbn [snd]. split.
    + split; cbn [stack memory]; unfold fillAll;
        rewrite ?length_fill; auto using Forall_fill.
    + intros i x _. cbn [stack]. apply lookup_fillAll.
Qed.

(** X28.  In every instance reachable from a fresh one by calls of [load],
    [execute] and [reset], every slot of the stack at an index from the
    stack counter upwards holds zero. *)
Theorem reachable_zero_above_counter (this : machine) :
  reachable this ->
  forall i : nat,
    stackCounter this <= Z.of_nat i -> Z.of_nat i < stackSize ->
    stack this !! i = Some 0.
Proof.
  intros H i Hi Hlt. destruct (reachable_invariant this H) as [Hwf Hz].
  destruct (lookup_lt_is_Some_2 (stack this) i) as [x Hx].
  - rewrite (wf_stack_length this Hwf). lia.
  - rewrite Hx. f_equal. exact (Hz i x Hi Hx).
Qed.

Lemma steps_reachable (n : nat) (this : machine) :
  reachable this -> reachable (steps n this).
Proof.
  intros H. induction n as [|n IH]; [exact H|].
  cbn. apply reachable_execute. exact IH.
Qed.

Lemma after_reachable (program : list Z) (n : nat) :
  reachable (after program n).
Proof. apply steps_reachable, reachable_load, reachable_new. Qed.

Lemma reachable_zero_above_counter_witness :
  stackCounter (after [2; 42; 2; 7; 3] 3) = 1
  /\ stack (after [2; 42; 2; 7; 3] 2) !! 1%nat = Some 7
  /\ stack (after [2; 42; 2; 7; 3] 3) !! 1%nat = Some 0.
Proof.
  split; [vm_compute; reflexivity|].
  split; [vm_compute; reflexivity|].
  apply (reachable_zero_above_counter (after [2; 42; 2; 7; 3] 3)
           (after_reachable _ _) 1%nat).
  - vm_compute. discriminate.
  - vm_compute. reflexivity.
Defined.

(** C2.  The code does not keep the stack counter at or below [stackSize]:
    [ensureStackBounds] is defined and never called, so no step checks for a
    full stack.  The program that pushes two values and jumps back, run for
    767 steps from a fresh instance, leaves 257 values counted on a stack of
    256 slots. *)
Lemma counter_exceeds_stack_size :
  reachable (after [2; 42; 2; 0; 17] 767)
  /\ stackCounter (after [2; 42; 2; 0; 17] 767) = 257
  /\ ~ (0 <= stackCounter (after [2; 42; 2; 0; 17] 767) <= stackSize).
Proof.
  split; [apply after_reachable|].
  assert (H : stackCounter (after [2; 42; 2; 0; 17] 767) = 257)
    by (vm_compute; reflexivity).
  split; [exact H|]. rewrite H. unfold stackSize, wordSize. lia.
Qed.

(** ** Properties of the assembler *)

(** *** The range of a word *)

Lemma mapWithIndex_throws {A B} (f : A -> nat -> result B) (x : A)
  (rest : list A) :
  (forall i, isOk (f x i) = false) ->
  forall (before : list A) (index : nat),
    isOk (Assembly.mapWithIndex f index (before ++ x :: rest)) = false.
Proof.
  intros Hx. induction before as [|y before IH]; intros index.
  - cbn. specialize (Hx index). destruct (f x index); [discriminate|].
    reflexivity.
  - cbn. destruct (f y index); [|reflexivity]. cbn.
    specialize (IH (S index)).
    destruct (Assembly.mapWithIndex f (S index) (before ++ x :: rest));
      [discriminate|reflexivity].
Qed.

(** C7. The range check accepts an integer exactly when it lies between
    [-128] and [127]; it rejects [128] and [-129], and so does code
    generation for a parse tree that holds a data node of such a value. *)
Theorem word_range_check :
  (forall v : Z, isInValueRange (Num v) = true <-> -128 <= v <= 127)
  /\ isInValueRange (Num 128) = false
  /\ isInValueRange (Num (-129)) = false
  /\ (forall (before rest : list Assembly.node) (n : Assembly.node),
        Assembly.type n = "data"%string ->
        isInValueRange (Assembly.value n) = false ->
        isOk (Assembly.generateInstructions (before ++ n :: rest)) = false)
  /\ (forall code comment,
        Assembly.generateInstructions
          [Assembly.Node code "data" (Num 128) comment]
        = Throw (DataValueExceedsRange 0))
  /\ (forall code comment,
        Assembly.generateInstructions
          [Assembly.Node code "data" (Num (-129)) comment]
        = Throw (DataValueExceedsRange 0)).
Proof.
  split; [|split; [reflexivity|split; [reflexivity|split; [|split]]]].
  - intros v. rewrite isInValueRange_Num. lia.
  - intros before rest n Ht Hv. unfold Assembly.generateInstructions.
    match goal with
    | |- context [Assembly.mapWithIndex ?f O _] =>
        pose proof (mapWithIndex_throws f n rest) as H
    end.
    cbn beta in H. rewrite Ht, Hv in H.
    specialize (H (fun _ => eq_refl) before O).
    destruct (Assembly.mapWithIndex _ _ _); [discriminate|reflexivity].
  - reflexivity.
  - reflexivity.
Qed.

Lemma word_range_check_witness :
  isInValueRange (Num 127) = true
  /\ isInValueRange (Num (-128)) = true
  /\ isOk (Assembly.generateInstructions
             ([Assembly.Node "pu" "push" undefined None]
              ++ Assembly.Node "128" "data" (Num 128) None
              :: [Assembly.Node "ha" "halt" undefined None])) = false.
Proof.
  destruct word_range_check as (Hiff & _ & _ & Hgen & _).
  split; [apply Hiff; lia|]. split; [apply Hiff; lia|].
  apply Hgen; reflexivity.
Defined.

(** *** The pattern finds the first code of a line *)

Lemma codeChar_not_space (c : ascii) :
  Assembly.isCodeChar c = true -> Assembly.isSpace c = false.
Proof.
  destruct c as [[] [] [] [] [] [] [] []]; vm_compute;
    intros H; (reflexivity || discriminate H).
Qed.

Lemma exec_unfold (s : string) :
  Assembly.exec s =
  match Assembly.matchHere s with
  | Some captures => Some captures
  | None =>
      match s with
      | EmptyString => None
      | String _ s' => Assembly.exec s'
      end
  end.
Proof. destruct s; reflexivity. Qed.

Lemma takeCode_codeChar (c : ascii) (s : string) :
  Assembly.isCodeChar c = true ->
  Assembly.isEmpty (fst (Assembly.takeCode (String c s))) = false.
Proof.
  intros H. cbn [Assembly.takeCode]. rewrite H.
  destruct (Assembly.takeCode s). reflexivity.
Qed.

Lemma matchHere_codeChar (c : ascii) (s : string) :
  Assembly.isCodeChar c = true ->
  exists comment,
    Assembly.matchHere (String c s)
    = Some (fst (Assembly.takeCode (String c s)), comment).
Proof.
  intros H. unfold Assembly.matchHere.
  cbn [Assembly.trimStart]. rewrite (codeChar_not_space c H).
  pose proof (takeCode_codeChar c s H) as Hne.
  destruct (Assembly.takeCode (String c s)) as [code rest].
  cbn [fst] in *. rewrite Hne. eauto.
Qed.

Lemma matchHere_other (c : ascii) (s : string) :
  Assembly.isCodeChar c = false ->
  Assembly.matchHere (String c s) =
  if Assembly.isSpace c then Assembly.matchHere s else None.
Proof.
  intros H. unfold Assembly.matchHere. cbn [Assembly.trimStart].
  destruct (Assembly.isSpace c); [reflexivity|].
  cbn [Assembly.takeCode]. rewrite H. reflexivity.
Qed.

(** The leftmost match captures the first run of code characters; there is
    no match exactly when the line has no code character. *)
Lemma exec_firstCode (s : string) :
  fst <$> Assembly.exec s = firstCode s.
Proof.
  induction s as [|c s IH]; [reflexivity|].
  rewrite exec_unfold. cbn [firstCode].
  destruct (Assembly.isCodeChar c) eqn:Hc.
  - destruct (matchHere_codeChar c s Hc) as [comment ->]. reflexivity.
  - rewrite (matchHere_other c s Hc).
    destruct (Assembly.isSpace c); [|exact IH].
    rewrite <- IH, (exec_unfold s).
    destruct (Assembly.matchHere s); reflexivity.
Qed.

Lemma find_mnemonic (code : string) :
  match List.find (fun '(_, mnemonic) => String.eqb code mnemonic)
                  Assembly.mnemonics with
  | Some _ => isMnemonic code = true
  | None => isMnemonic code = false
  end.
Proof.
  unfold isMnemonic.
  induction Assembly.mnemonics as [|[o m] l IH]; [reflexivity|].
  cbn [List.find existsb]. destruct (String.eqb code m); [reflexivity|].
  exact IH.
Qed.

(** *** Lines the parser accepts and rejects *)

(** A text without line feed that is trimmed and not empty is its own only
    line. *)
Lemma lines_single (line : string) :
  hasLineFeed line = false -> Assembly.trim line = line ->
  Assembly.isEmpty line = false ->
  Assembly.lines line = [line].
Proof.
  intros Hlf Htrim Hne. unfold Assembly.lines.
  assert (Hsplit : Assembly.split line = [line]).
  { clear Htrim Hne. induction line as [|c s IH]; [reflexivity|].
    cbn [hasLineFeed] in Hlf. apply orb_false_iff in Hlf as [Hc Hs].
    cbn [Assembly.split]. rewrite Hc, (IH Hs). reflexivity. }
  rewrite Hsplit. cbn [List.map List.filter]. rewrite Htrim, Hne.
  reflexivity.
Qed.

(** What the parser does with a text that is one trimmed, non-blank line:
    it fails when the line holds no word, digit or hyphen character, and
    when the first run of such characters neither starts with an integer
    nor is a mnemonic; otherwise it yields one parse node for that run,
    whatever precedes the run and whatever follows it. *)
Lemma parse_line_by_first_code (line : string) :
  Assembly.lines line = [line] ->
  match firstCode line with
  | None => Assembly.parseProgram line = Throw NullCaptures
  | Some code =>
      if negb (Assembly.isNaN (Assembly.parseInt code)) || isMnemonic code
      then exists n, Assembly.parseProgram line = Ok [n]
                     /\ Assembly.code n = code
      else Assembly.parseProgram line = Throw (InvalidAssemblyCode code)
  end.
Proof.
  intros Hlines. unfold Assembly.parseProgram. rewrite Hlines.
  change (throwIf _ ProgramLengthExceedsMemory) with (Ok tt).
  cbn [mbind result_bind Assembly.mapWithIndex].
  unfold Assembly.tokenize. rewrite <- exec_firstCode.
  destruct (Assembly.exec line) as [[code comment]|];
    cbn [fmap option_fmap option_map fst mbind result_bind
         Assembly.mapWithIndex]; [|reflexivity].
  unfold Assembly.classify.
  destruct (negb (Assembly.isNaN (Assembly.parseInt code)));
    cbn [orb mbind result_bind]; [eauto|].
  pose proof (find_mnemonic code) as Hm.
  destruct (List.find _ Assembly.mnemonics) as [[o m]|]; rewrite Hm;
    cbn [mbind result_bind]; eauto.
Qed.

Lemma parse_line_by_first_code_witness :
  Assembly.lines "ha ha"%string = ["ha ha"%string]
  /\ exists n, Assembly.parseProgram "ha ha"%string = Ok [n]
               /\ Assembly.code n = "ha"%string.
Proof.
  split; [reflexivity|].
  apply (parse_line_by_first_code "ha ha"%string). reflexivity.
Defined.

(** C5.  The pattern of a line is not anchored, and the parser never checks
    that a line has the shape of a code with an optional comment: on a line
    that is only a comment the parser finds the code inside the comment and
    yields a data node, where a syntax error is due. *)
Lemma comment_line_parses :
  Assembly.lines "# 5"%string = ["# 5"%string]
  /\ hasLineShape "# 5"%string = false
  /\ Assembly.parseProgram "# 5"%string
     = Ok [Assembly.Node "5" "data" (Num 5) None].
Proof. vm_compute. repeat split; reflexivity. Qed.

(** Lines without any code character, and lines whose first code is
    neither a number nor a mnemonic, are rejected. *)
Lemma rejected_lines :
  Assembly.parseProgram "#"%string = Throw NullCaptures
  /\ Assembly.parseProgram "# comment"%string
     = Throw (InvalidAssemblyCode "comment").
Proof. vm_compute. split; reflexivity. Qed.

(** ** Scenarios *)

(** The three kinds of failure of a step: an operation code outside the
    table, too few values on the stack, a value outside the range. *)
Example failure_kinds :
  execute (after [19] 0) = (Failure (InvalidOperationCode (Num 19)), after [19] 0)
  /\ execute (after [6] 0) = (Failure (StackTooSmall 2), after [6] 0)
  /\ execute (after [2; 100; 2; 100; 6] 2)
     = (Failure (Fail fStackValuesPushed), after [2; 100; 2; 100; 6] 2).
Proof. vm_compute. repeat split; reflexivity. Qed.

(** The program [pu 42 pu 0 ju] assembles to five words; its third step
    jumps back by four. *)
Example assemble_loop :
  (tree ← Assembly.parseProgram
            ("pu" ++ String "010" ("42" ++ String "010" ("pu" ++ String "010"
             ("0" ++ String "010" "ju"))));
   Assembly.generateInstructions tree)
  = Ok [2; 42; 2; 0; 17].
Proof. vm_compute. reflexivity. Qed.

Example loop_third_step :
  fst (execute (after [2; 42; 2; 0; 17] 2))
  = Success operations.jump (Num 17) (change 1 [] (Num (-4)))
  /\ instructionPointer (after [2; 42; 2; 0; 17] 3) = Num 0
  /\ stackCounter (after [2; 42; 2; 0; 17] 3) = 1.
Proof. vm_compute. repeat split; reflexivity. Qed.

(** After [halt] the instruction pointer is [NaN], and every further step
    fails until [reset]. *)
Example halt_then_step :
  halt (requested operations.halt (after [0] 0)) = true
  /\ instructionPointer (after [0] 1) = NaN
  /\ fst (execute (after [0] 1)) = Failure (InvalidOperationCode undefined).
Proof. vm_compute. repeat split; reflexivity. Qed.

(** ** Further properties of the stack machine *)

(** *** Operation codes *)

(** X1. The code of an operation is its position among the keys, and the
    two lookups are inverse to each other: the name of every code between 0
    and 18 has that code, and the code of every operation has its name. *)
Theorem operation_code_round_trip :
  (forall o : operations.t,
      exists c, getOpCodeByName (operations.name o) = Ok c
                /\ 0 <= c <= 18
                /\ getOpNameByCode (Num c) = Ok o)
  /\ (forall (z : Z) (o : operations.t),
        getOpNameByCode (Num z) = Ok o ->
        0 <= z <= 18 /\ getOpCodeByName (operations.name o) = Ok z).
Proof.
  split.
  - intros o. destruct o; eexists; (split; [vm_compute; reflexivity|]);
      (split; [lia|reflexivity]).
  - intros z o. unfold getOpNameByCode.
    destruct (Z.ltb_spec z 0) as [Hneg|Hpos]; [discriminate|].
    destruct (operations.keys !! Z.to_nat z) as [o'|] eqn:E; [|discriminate].
    intros [= ->].
    assert (Hlt : (Z.to_nat z < 19)%nat)
      by (apply lookup_lt_Some in E; exact E).
    assert (Hz : z = Z.of_nat (Z.to_nat z)) by lia.
    revert E Hz. generalize (Z.to_nat z) as n. intros n E ->. clear Hpos.
    do 19 (destruct n as [|n];
           [cbn in E; injection E as <-; split; [lia|reflexivity]|]).
    discriminate.
Qed.

Lemma operation_code_round_trip_witness :
  0 <= 17 <= 18
  /\ getOpCodeByName (operations.name operations.jump) = Ok 17.
Proof.
  destruct operation_code_round_trip as [_ H].
  apply (H 17 operations.jump). reflexivity.
Defined.

(** X2. A step whose fetched word is no operation code, being negative or
    above 18, fails with the error of the invalid code and changes
    nothing. *)
Theorem invalid_code_fails_step (this : machine) (ip w : Z) :
  instructionPointer this = Num ip ->
  get (memory this) (Num ip) = Num w ->
  w < 0 \/ 18 < w ->
  execute this = (Failure (InvalidOperationCode (Num w)), this)
  /\ errorClass (InvalidOperationCode (Num w)) = RangeError.
Proof.
  intros Hip Hw Hbad. split; [|reflexivity].
  rewrite execute_run. unfold decode. rewrite Hip, Hw.
  unfold getOpNameByCode.
  destruct (Z.ltb_spec w 0) as [Hneg|Hpos]; [reflexivity|].
  destruct (operations.keys !! Z.to_nat w) as [o|] eqn:E; [|reflexivity].
  apply lookup_lt_Some in E. cbn in E. lia.
Qed.

Lemma invalid_code_fails_step_witness :
  execute (after [19] 0) = (Failure (InvalidOperationCode (Num 19)), after [19] 0)
  /\ errorClass (InvalidOperationCode (Num 19)) = RangeError.
Proof.
  apply (invalid_code_fails_step (after [19] 0) 0 19).
  - reflexivity.
  - reflexivity.
  - right. lia.
Defined.

(** *** Too few values on the stack *)

Lemma precondition_required (o : operations.t) (this : machine) :
  1 <= required o ->
  precondition o this = Private.ensureStackCount this (required o).
Proof. destruct o; cbn; intros H; try reflexivity; lia. Qed.

(** X3. Every operation that asks for one or two values on the stack fails
    with the error of the missing values when the stack counter is below
    that number, and changes nothing. *)
Theorem stack_underflow_fails_step (this : machine) (o : operations.t) :
  decode this = Ok o ->
  1 <= required o ->
  stackCounter this < required o ->
  execute this = (Failure (StackTooSmall (required o)), this).
Proof.
  intros Hop Hreq Hc. rewrite execute_run, Hop, requested_shape.
  rewrite precondition_required by exact Hreq.
  unfold Private.ensureStackCount, throwIf.
  destruct (Z.ltb_spec (stackCounter this) (required o)); [reflexivity|lia].
Qed.

Lemma stack_underflow_fails_step_witness :
  execute (after [2; 5; 6] 1) = (Failure (StackTooSmall 2), after [2; 5; 6] 1).
Proof.
  apply (stack_underflow_fails_step (after [2; 5; 6] 1) operations.add).
  - vm_compute. reflexivity.
  - vm_compute. discriminate.
  - vm_compute. reflexivity.
Defined.

(** *** [reset] *)

Lemma fillAll_zero (a : list Z) :
  fillAll a (Num 0) = replicate (length a) 0.
Proof.
  apply list_eq. intros i.
  destruct (fillAll a (Num 0) !! i) as [x|] eqn:E.
  - pose proof (lookup_fillAll a i x E) as ->.
    apply lookup_lt_Some in E. unfold fillAll in E.
    rewrite length_fill in E. symmetry. apply lookup_replicate_2. exact E.
  - apply lookup_ge_None in E. unfold fillAll in E.
    rewrite length_fill in E. symmetry. apply lookup_ge_None.
    rewrite length_replicate. exact E.
Qed.

(** X4. [reset] always succeeds and turns every instance into a fresh one:
    the stack and the memory are all zero, the stack counter and the
    instruction pointer are zero. *)
Theorem reset_gives_fresh_instance (this : machine) :
  wellFormed this -> reset this = (Ok tt, new).
Proof.
  intros [H1 H2 _ _]. rewrite reset_run. rewrite !fillAll_zero, H1, H2.
  reflexivity.
Qed.

Lemma reset_gives_fresh_instance_witness :
  reset (after [2; 42; 2; 0; 17] 5) = (Ok tt, new).
Proof.
  apply (reset_gives_fresh_instance (after [2; 42; 2; 0; 17] 5)).
  apply wellFormedb_true. vm_compute. reflexivity.
Defined.

(** *** [halt] *)

Lemma execute_without_pointer (this : machine) :
  instructionPointer this = NaN ->
  execute this = (Failure (InvalidOperationCode undefined), this).
Proof.
  intros Hip. rewrite execute_run. unfold decode. rewrite Hip. reflexivity.
Qed.

Lemma halt_run (this : machine) :
  Private.halt this = Ok (requested operations.halt this).
Proof.
  unfold Private.halt. apply defineSafeStateChange_valid; cbn; auto.
Qed.

(** X5. [halt] always succeeds and changes nothing but the instruction
    pointer, which is no address any more; every later step fails and
    leaves the instance as [halt] left it, however many are made. *)
Theorem halt_is_final (this : machine) (n : nat) :
  decode this = Ok operations.halt ->
  execute this
  = (Success operations.halt (get (memory this) (instructionPointer this))
             (requested operations.halt this),
     withInstructionPointer NaN this)
  /\ steps n (withInstructionPointer NaN this) = withInstructionPointer NaN this
  /\ fst (execute (steps n (withInstructionPointer NaN this)))
     = Failure (InvalidOperationCode undefined).
Proof.
  intros Hop.
  assert (Hsteps : steps n (withInstructionPointer NaN this)
                   = withInstructionPointer NaN this).
  { induction n as [|n IH]; [reflexivity|].
    change (steps (S n) (withInstructionPointer NaN this))
      with (snd (execute (steps n (withInstructionPointer NaN this)))).
    rewrite IH, execute_without_pointer; reflexivity. }
  split; [|split; [exact Hsteps|]].
  - rewrite execute_run, Hop. cbn [Private.getOperationByName].
    rewrite halt_run. f_equal. unfold committed, withInstructionPointer.
    cbn [requested halt numStackValuesPopped stackValuesPushed
         memoryAddressWritten memoryValueWritten instructionPointerDiff
         isUndefined negb length pushList].
    rewrite Z.sub_0_r, fill_nothing by lia.
    rewrite Z.add_0_r. f_equal.
    destruct (instructionPointer this); reflexivity.
  - rewrite Hsteps, execute_without_pointer; reflexivity.
Qed.

Lemma halt_is_final_witness :
  execute (after [2; 42; 0] 1)
  = (Success operations.halt (Num 0) (requested operations.halt (after [2; 42; 0] 1)),
     withInstructionPointer NaN (after [2; 42; 0] 1))
  /\ steps 7 (withInstructionPointer NaN (after [2; 42; 0] 1))
     = withInstructionPointer NaN (after [2; 42; 0] 1)
  /\ fst (execute (steps 7 (withInstructionPointer NaN (after [2; 42; 0] 1))))
     = Failure (InvalidOperationCode undefined).
Proof.
  apply (halt_is_final (after [2; 42; 0] 1) 7). vm_compute. reflexivity.
Defined.

(** *** What every call keeps *)

Lemma load_pointer (words : argument) (this : machine) :
  instructionPointer (snd (load words this)) = instructionPointer this.
Proof.
  destruct words as [ws| | | |]; try reflexivity.
  unfold load.
  destruct (_ =? 0); [reflexivity|].
  destruct (_ >? _); [reflexivity|].
  rewrite copyWords_run. reflexivity.
Qed.

Lemma requested_halt (o : operations.t) (this : machine) :
  halt (requested o this) = true ->
  instructionPointerDiff (requested o this) = undefined.
Proof. destruct o; cbn; intros H; (reflexivity || discriminate H). Qed.

(** X6. In every instance reachable from a fresh one by calls of [load],
    [execute] and [reset], the instruction pointer is an address of the
    memory, unless a [halt] has been executed since the last [reset]: then
    it is no number. *)
Theorem reachable_pointer_in_memory (this : machine) :
  reachable this ->
  instructionPointer this = NaN
  \/ exists ip, instructionPointer this = Num ip /\ 0 <= ip < memorySize.
Proof.
  induction 1 as [|m words Hm IH|m Hm IH|m Hm IH].
  - right. exists 0. split; [reflexivity|]. unfold memorySize, wordSize. lia.
  - rewrite load_pointer. exact IH.
  - rewrite execute_run.
    destruct (decode m) as [o|e]; [|exact IH].
    destruct (Private.getOperationByName o m) as [c|e] eqn:Hop; [|exact IH].
    cbn [snd committed instructionPointer].
    rewrite requested_shape in Hop.
    destruct (precondition o m) as [[]|e]; cbn [mbind result_bind] in Hop;
      [|discriminate].
    apply defineSafeStateChange_Ok in Hop as (-> & _ & _ & _ & _ & [Hh|Hr]).
    + left. rewrite (requested_halt o m Hh).
      destruct (instructionPointer m); reflexivity.
    + right. apply isInAddressRange_spec in Hr. exact Hr.
  - rewrite reset_run. right. exists 0. split; [reflexivity|].
    unfold memorySize, wordSize. lia.
Qed.

Lemma reachable_pointer_in_memory_witness :
  instructionPointer (after [2; 42; 2; 0; 17] 3) = NaN
  \/ exists ip, instructionPointer (after [2; 42; 2; 0; 17] 3) = Num ip
                /\ 0 <= ip < memorySize.
Proof.
  apply (reachable_pointer_in_memory (after [2; 42; 2; 0; 17] 3)).
  apply steps_reachable, reachable_load, reachable_new.
Defined.

(** *** What a successful step changes *)

Lemma execute_Success (this this' : machine) (o : operations.t)
  (opCode : value) (c : stateChange) :
  execute this = (Success o opCode c, this') ->
  decode this = Ok o
  /\ precondition o this = Ok tt
  /\ Private.defineSafeStateChange this (requested o this) = Ok c
  /\ c = requested o this
  /\ this' = committed c this.
Proof.
  rewrite execute_run. destruct (decode this) as [o'|e]; [|discriminate].
  rewrite requested_shape.
  destruct (precondition o' this) as [[]|e] eqn:Hpre;
    cbn [mbind result_bind]; [|discriminate].
  destruct (Private.defineSafeStateChange this (requested o' this))
    as [c'|e] eqn:E; [|discriminate].
  intros [= <- <- <- <-].
  pose proof (defineSafeStateChange_Ok _ _ _ E) as (-> & _). auto.
Qed.

(** X7. No operation but [store] writes to the memory: after a successful
    step of any other operation the memory is what it was. *)
Theorem only_store_writes_memory (this this' : machine) (o : operations.t)
  (opCode : value) (c : stateChange) :
  execute this = (Success o opCode c, this') ->
  o <> operations.store ->
  memory this' = memory this.
Proof.
  intros H Ho. apply execute_Success in H as (_ & _ & _ & -> & ->).
  unfold committed. cbn [memory].
  destruct o; try reflexivity. congruence.
Qed.

Lemma only_store_writes_memory_witness :
  memory (snd (execute (after [2; 2; 2; -7; 9] 2)))
  = memory (after [2; 2; 2; -7; 9] 2).
Proof.
  apply (only_store_writes_memory
           (after [2; 2; 2; -7; 9] 2) _ operations.divide (Num 9)
           (change 2 [Num (-1); Num (-4)] (Num 1))).
  - vm_compute. reflexivity.
  - discriminate.
Defined.

(** X8. A successful step changes the stack counter by an amount that
    depends on the operation alone: the values it pushes less the values it
    pops.  So a [push] followed by an operation of two operands other than
    [divide] leaves the counter as it was. *)
Theorem step_changes_counter_by_net_effect (this this' : machine)
  (o : operations.t) (opCode : value) (c : stateChange) :
  execute this = (Success o opCode c, this') ->
  stackCounter this' = stackCounter this + netEffect o
  /\ netEffect o
     = Z.of_nat (length (stackValuesPushed c)) - numStackValuesPopped c.
Proof.
  intros H. apply execute_Success in H as (_ & _ & _ & -> & ->).
  unfold committed. cbn [stackCounter].
  destruct o; cbn; try (split; lia).
  destruct (strictEq _ _); cbn; split; lia.
Qed.

Lemma step_changes_counter_by_net_effect_witness :
  stackCounter (snd (execute (after [2; 3; 2; 4; 8] 2)))
  = stackCounter (after [2; 3; 2; 4; 8] 2) + netEffect operations.multiply
  /\ netEffect operations.multiply
     = Z.of_nat (length (stackValuesPushed (change 2 [Num 12] (Num 1))))
       - numStackValuesPopped (change 2 [Num 12] (Num 1)).
Proof.
  apply (step_changes_counter_by_net_effect
           (after [2; 3; 2; 4; 8] 2) _ operations.multiply (Num 8)).
  vm_compute. reflexivity.
Defined.

(** *** The stack as its values below, the values popped and the slots
    above *)

Lemma fill_split (below popped above : list Z) :
  fill (below ++ popped ++ above) (Num 0)
       (Z.of_nat (length below))
       (Z.of_nat (length below) + Z.of_nat (length popped))
  = below ++ replicate (length popped) 0 ++ above.
Proof.
  apply list_eq. intros i. rewrite lookup_fill.
  rewrite !length_app. unfold relativeIndex.
  destruct (Z.ltb_spec (Z.of_nat (length below)) 0); [exfalso; lia|].
  destruct (Z.ltb_spec (Z.of_nat (length below) + Z.of_nat (length popped)) 0);
    [exfalso; lia|].
  rewrite !Z.min_l by lia.
  destruct (Nat.lt_ge_cases i (length below)) as [H1|H1].
  - rewrite !lookup_app_l by exact H1.
    destruct (below !! i); [|reflexivity]. cbn.
    destruct (Z.leb_spec (Z.of_nat (length below)) (Z.of_nat i));
      [exfalso; lia|]. reflexivity.
  - rewrite (lookup_app_r below (popped ++ above)) by exact H1.
    rewrite (lookup_app_r below (replicate _ 0 ++ above)) by exact H1.
    destruct (Nat.lt_ge_cases (i - length below) (length popped)) as [H2|H2].
    + rewrite (lookup_app_l popped) by exact H2.
      rewrite (lookup_app_l (replicate _ 0))
        by (rewrite length_replicate; exact H2).
      destruct (lookup_lt_is_Some_2 popped (i - length below) H2) as [x ->].
      rewrite lookup_replicate_2 by exact H2. cbn.
      destruct (Z.leb_spec (Z.of_nat (length below)) (Z.of_nat i));
        [|exfalso; lia].
      destruct (Z.ltb_spec (Z.of_nat i)
                  (Z.of_nat (length below) + Z.of_nat (length popped)));
        [|exfalso; lia].
      reflexivity.
    + rewrite (lookup_app_r popped) by exact H2.
      rewrite (lookup_app_r (replicate _ 0))
        by (rewrite length_replicate; exact H2).
      rewrite length_replicate.
      destruct (above !! _); [|reflexivity]. cbn.
      destruct (Z.ltb_spec (Z.of_nat i)
                  (Z.of_nat (length below) + Z.of_nat (length popped)));
        [exfalso; lia|].
      rewrite andb_false_r. reflexivity.
Qed.

(** The instance after a change that pops [popped] and pushes [zs]. *)
Lemma committed_split (this : machine) (c : stateChange)
  (below popped above zs : list Z) :
  stack this = below ++ popped ++ above ->
  stackCounter this = Z.of_nat (length below) + Z.of_nat (length popped) ->
  numStackValuesPopped c = Z.of_nat (length popped) ->
  stackValuesPushed c = Num <$> zs ->
  Forall isInt8 zs ->
  (length zs <= length popped + length above)%nat ->
  committed c this =
  {| stack := below ++ zs
              ++ drop (length zs) (replicate (length popped) 0 ++ above);
     stackCounter := Z.of_nat (length below) + Z.of_nat (length zs);
     memory := if negb (isUndefined (memoryAddressWritten c))
               then set (memory this) (memoryAddressWritten c)
                        (memoryValueWritten c)
               else memory this;
     instructionPointer :=
       JS.add (instructionPointer this) (instructionPointerDiff c) |}.
Proof.
  intros Hs Hc Hn Hp Hz Hlen. unfold committed.
  rewrite Hs, Hc, Hn, Hp.
  replace (Z.of_nat (length below) + Z.of_nat (length popped)
           - Z.of_nat (length popped)) with (Z.of_nat (length below)) by lia.
  rewrite fill_split.
  rewrite pushList_words
    by (rewrite ?length_app, ?length_replicate; auto).
  rewrite length_fmap. reflexivity.
Qed.

Lemma peek_at (this : machine) (below rest : list Z) (x k : Z) :
  stack this = below ++ x :: rest ->
  stackCounter this - k = Z.of_nat (length below) ->
  Private.peek this k = Num x.
Proof.
  intros Hs Hk. unfold Private.peek. rewrite Hk, Hs. apply get_Num.
  split; [lia|]. rewrite Nat2Z.id.
  rewrite lookup_app_r by lia. rewrite Nat.sub_diag. reflexivity.
Qed.

Lemma peek_top (this : machine) (below above : list Z) (second top : Z) :
  stack this = below ++ second :: top :: above ->
  stackCounter this = Z.of_nat (length below) + 2 ->
  Private.peek this 1 = Num top /\ Private.peek this 2 = Num second.
Proof.
  intros Hs Hc. split.
  - apply (peek_at this (below ++ [second]) above).
    + rewrite <- app_assoc. exact Hs.
    + rewrite length_app. cbn. lia.
  - apply (peek_at this below (top :: above)); [exact Hs|lia].
Qed.

Lemma pointer_advances (ip d : Z) :
  0 <= ip + d < memorySize ->
  isInAddressRange (JS.add (Num ip) (Num d)) = true.
Proof.
  intros H. apply isInAddressRange_spec. exists (ip + d). auto.
Qed.

(** A step whose operation passes its checks commits the change it asked
    for. *)
Lemma step_commits (this : machine) (o : operations.t) (c : stateChange) :
  decode this = Ok o ->
  precondition o this = Ok tt ->
  requested o this = c ->
  Private.defineSafeStateChange this c = Ok c ->
  execute this =
  (Success o (get (memory this) (instructionPointer this)) c,
   committed c this).
Proof.
  intros Hop Hpre Hreq Hval.
  rewrite execute_run, Hop, requested_shape, Hpre, Hreq.
  cbn [mbind result_bind]. rewrite Hval. reflexivity.
Qed.

Lemma step_rejects (this : machine) (o : operations.t) (e : exn) :
  decode this = Ok o ->
  precondition o this = Ok tt ->
  Private.defineSafeStateChange this (requested o this) = Throw e ->
  execute this = (Failure e, this).
Proof.
  intros Hop Hpre Hval.
  rewrite execute_run, Hop, requested_shape, Hpre.
  cbn [mbind result_bind]. rewrite Hval. reflexivity.
Qed.

Lemma bit_flag (b : bool) : Private.bit b = Num (flag b).
Proof. destruct b; reflexivity. Qed.

Lemma flag_isInt8 (b : bool) : isInt8 (flag b).
Proof. destruct b; unfold isInt8; cbn; lia. Qed.

Lemma requested_binary (this : machine) (o : operations.t)
  (f : Z -> Z -> Z) (top second : Z) :
  binary o = Some f ->
  Private.peek this 1 = Num top -> Private.peek this 2 = Num second ->
  requested o this = change 2 [Num (f top second)] (Num 1)
  /\ required o = 2.
Proof.
  intros Hf Ht Hs.
  destruct o; try discriminate Hf; injection Hf as <-;
    cbn [requested required]; rewrite Ht, Hs;
    cbn [JS.add JS.sub JS.mul arith JS.lt JS.gt strictEq];
    rewrite ?bit_flag; auto.
Qed.

(** The step of an operation of two operands whose result is a word. *)
Lemma binary_step (this : machine) (o : operations.t) (f : Z -> Z -> Z)
  (below above : list Z) (second top ip : Z) :
  stack this = below ++ second :: top :: above ->
  stackCounter this = Z.of_nat (length below) + 2 ->
  instructionPointer this = Num ip -> 0 <= ip -> ip + 1 < memorySize ->
  decode this = Ok o ->
  binary o = Some f ->
  isInt8 (f top second) ->
  execute this =
  (Success o (get (memory this) (Num ip))
           (change 2 [Num (f top second)] (Num 1)),
   {| stack := below ++ f top second :: 0 :: above;
      stackCounter := Z.of_nat (length below) + 1;
      memory := memory this;
      instructionPointer := Num (ip + 1) |}).
Proof.
  intros Hs Hc Hip H0 H1 Hop Hf Hr.
  destruct (peek_top this below above second top Hs Hc) as [Ht Hsnd].
  destruct (requested_binary this o f top second Hf Ht Hsnd) as [Hreq Hn].
  rewrite (step_commits this o (change 2 [Num (f top second)] (Num 1)) Hop).
  - rewrite Hip. f_equal.
    rewrite (committed_split this _ below [second; top] above [f top second]);
      cbn [length change numStackValuesPopped stackValuesPushed
           memoryAddressWritten memoryValueWritten instructionPointerDiff
           isUndefined negb fmap list_fmap]; auto; try lia.
    rewrite Hip. reflexivity.
  - rewrite precondition_required, Hn by lia.
    apply ensureStackCount_Ok. lia.
  - exact Hreq.
  - apply defineSafeStateChange_valid;
      cbn [change halt numStackValuesPopped stackValuesPushed
           memoryAddressWritten memoryValueWritten instructionPointerDiff
           isUndefined forallb]; auto.
    + rewrite andb_true_r. apply isInValueRange_spec. eauto.
    + right. rewrite Hip. apply pointer_advances. lia.
Qed.

(** *** Operations of two operands *)

(** X9. With the second operand and, above it, the top operand as the two
    topmost values of the stack, an operation of two operands whose result
    [top + second], [top - second], [top * second] or truth value is a word
    replaces the second operand by the result, clears the slot of the top
    operand, and steps to the next instruction; the rest of the stack and
    the memory stay. *)
Theorem binary_operation_replaces_operands (this : machine)
  (o : operations.t) (f : Z -> Z -> Z)
  (below above : list Z) (second top ip : Z) :
  stack this = below ++ second :: top :: above ->
  stackCounter this = Z.of_nat (length below) + 2 ->
  instructionPointer this = Num ip -> 0 <= ip -> ip + 1 < memorySize ->
  decode this = Ok o ->
  binary o = Some f ->
  isInt8 (f top second) ->
  execute this =
  (Success o (get (memory this) (Num ip))
           (change 2 [Num (f top second)] (Num 1)),
   {| stack := below ++ f top second :: 0 :: above;
      stackCounter := Z.of_nat (length below) + 1;
      memory := memory this;
      instructionPointer := Num (ip + 1) |}).
Proof. apply binary_step. Qed.

Lemma binary_operation_replaces_operands_witness :
  execute (after [2; 3; 2; 4; 7] 2) =
  (Success operations.subtract (Num 7) (change 2 [Num 1] (Num 1)),
   {| stack := [] ++ (4 - 3) :: 0 :: replicate 254 0;
      stackCounter := Z.of_nat (length (@nil Z)) + 1;
      memory := memory (after [2; 3; 2; 4; 7] 2);
      instructionPointer := Num (4 + 1) |}).
Proof.
  apply (binary_operation_replaces_operands
           (after [2; 3; 2; 4; 7] 2) operations.subtract
           (fun top second => top - second) [] (replicate 254 0) 3 4 4).
  - vm_compute. reflexivity.
  - vm_compute. reflexivity.
  - vm_compute. reflexivity.
  - lia.
  - vm_compute. reflexivity.
  - vm_compute. reflexivity.
  - reflexivity.
  - unfold isInt8. lia.
Defined.

(** X10. The comparisons and the logical operations of two operands never
    fail for their result: with both operands on the stack and the next
    instruction inside the memory, each of them succeeds and pushes 0
    or 1. *)
Theorem test_operation_pushes_truth_value (this : machine)
  (o : operations.t) (below above : list Z) (second top ip : Z) :
  stack this = below ++ second :: top :: above ->
  stackCounter this = Z.of_nat (length below) + 2 ->
  instructionPointer this = Num ip -> 0 <= ip -> ip + 1 < memorySize ->
  decode this = Ok o ->
  isTest o = true ->
  exists (f : Z -> Z -> Z) (b : bool),
    binary o = Some f
    /\ f top second = flag b
    /\ execute this =
       (Success o (get (memory this) (Num ip)) (change 2 [Num (flag b)] (Num 1)),
        {| stack := below ++ flag b :: 0 :: above;
           stackCounter := Z.of_nat (length below) + 1;
           memory := memory this;
           instructionPointer := Num (ip + 1) |}).
Proof.
  intros Hs Hc Hip H0 H1 Hop Ht.
  assert (H : exists f, binary o = Some f /\ exists b, f top second = flag b)
    by (destruct o; try discriminate Ht; eexists;
        (split; [reflexivity|]); eexists; reflexivity).
  destruct H as (f & Hf & b & Hb). exists f, b.
  split; [exact Hf|]. split; [exact Hb|]. rewrite <- Hb.
  apply binary_step; auto. rewrite Hb. apply flag_isInt8.
Qed.

Lemma test_operation_pushes_truth_value_witness :
  exists (f : Z -> Z -> Z) (b : bool),
    binary operations.less = Some f
    /\ f 100 (-100) = flag b
    /\ execute (after [2; -100; 2; 100; 10] 2) =
       (Success operations.less
                (get (memory (after [2; -100; 2; 100; 10] 2)) (Num 4))
                (change 2 [Num (flag b)] (Num 1)),
        {| stack := [] ++ flag b :: 0 :: replicate 254 0;
           stackCounter := Z.of_nat (length (@nil Z)) + 1;
           memory := memory (after [2; -100; 2; 100; 10] 2);
           instructionPointer := Num (4 + 1) |}).
Proof.
  apply (test_operation_pushes_truth_value
           (after [2; -100; 2; 100; 10] 2) operations.less
           [] (replicate 254 0) (-100) 100 4).
  - vm_compute. reflexivity.
  - vm_compute. reflexivity.
  - vm_compute. reflexivity.
  - lia.
  - vm_compute. reflexivity.
  - vm_compute. reflexivity.
  - reflexivity.
Defined.

(** *** Operations of one operand *)

Lemma peek_one (this : machine) (below above : list Z) (top : Z) :
  stack this = below ++ top :: above ->
  stackCounter this = Z.of_nat (length below) + 1 ->
  Private.peek this 1 = Num top.
Proof.
  intros Hs Hc. apply (peek_at this below above); [exact Hs|lia].
Qed.

(** X11. With a value on the stack and the next instruction address
    [IP + 1] below [memorySize], [not] replaces the top of the stack by 1
    when it is 0 and by 0 otherwise, and steps to the next instruction. *)
Theorem not_replaces_top (this : machine) (below above : list Z)
  (top ip : Z) :
  stack this = below ++ top :: above ->
  stackCounter this = Z.of_nat (length below) + 1 ->
  instructionPointer this = Num ip -> 0 <= ip -> ip + 1 < memorySize ->
  decode this = Ok operations.not ->
  execute this =
  (Success operations.not (get (memory this) (Num ip))
           (change 1 [Num (flag (top =? 0))] (Num 1)),
   {| stack := below ++ flag (top =? 0) :: above;
      stackCounter := Z.of_nat (length below) + 1;
      memory := memory this;
      instructionPointer := Num (ip + 1) |}).
Proof.
  intros Hs Hc Hip H0 H1 Hop.
  pose proof (peek_one this below above top Hs Hc) as Ht.
  rewrite (step_commits this operations.not
             (change 1 [Num (flag (top =? 0))] (Num 1)) Hop).
  - rewrite Hip. f_equal.
    rewrite (committed_split this _ below [top] above [flag (top =? 0)]);
      fields; auto using flag_isInt8; try lia.
    rewrite Hip. reflexivity.
  - apply ensureStackCount_Ok. lia.
  - cbn [requested]. rewrite Ht. cbn [strictEq]. rewrite bit_flag.
    reflexivity.
  - apply defineSafeStateChange_valid; fields; auto.
    + rewrite andb_true_r. apply isInValueRange_spec.
      eauto using flag_isInt8.
    + right. rewrite Hip. apply pointer_advances. lia.
Qed.

Lemma not_replaces_top_witness :
  execute (after [2; 0; 16] 1) =
  (Success operations.not (get (memory (after [2; 0; 16] 1)) (Num 2))
           (change 1 [Num (flag (0 =? 0))] (Num 1)),
   {| stack := [] ++ flag (0 =? 0) :: replicate 255 0;
      stackCounter := Z.of_nat (length (@nil Z)) + 1;
      memory := memory (after [2; 0; 16] 1);
      instructionPointer := Num (2 + 1) |}).
Proof.
  apply (not_replaces_top (after [2; 0; 16] 1) [] (replicate 255 0) 0 2).
  - vm_compute. reflexivity.
  - vm_compute. reflexivity.
  - vm_compute. reflexivity.
  - lia.
  - vm_compute. reflexivity.
  - vm_compute. reflexivity.
Defined.

(** X12. With a value on the stack and the next instruction address
    [IP + 1] below [memorySize], the operation [load] replaces the address
    on top of the stack by the word the memory holds there; with a negative
    address on top the step fails and changes nothing. *)
Theorem load_operation_reads_memory (this : machine) (below above : list Z)
  (top ip : Z) :
  stack this = below ++ top :: above ->
  stackCounter this = Z.of_nat (length below) + 1 ->
  instructionPointer this = Num ip -> 0 <= ip -> ip + 1 < memorySize ->
  decode this = Ok operations.load ->
  (forall v : Z,
      0 <= top -> memory this !! Z.to_nat top = Some v -> isInt8 v ->
      execute this =
      (Success operations.load (get (memory this) (Num ip))
               (change 1 [Num v] (Num 1)),
       {| stack := below ++ v :: above;
          stackCounter := Z.of_nat (length below) + 1;
          memory := memory this;
          instructionPointer := Num (ip + 1) |}))
  /\ (top < 0 -> execute this = (Failure (Fail fStackValuesPushed), this)).
Proof.
  intros Hs Hc Hip H0 H1 Hop.
  pose proof (peek_one this below above top Hs Hc) as Ht.
  assert (Hpre : precondition operations.load this = Ok tt)
    by (apply ensureStackCount_Ok; lia).
  split.
  - intros v Htop Hv Hint.
    assert (Hget : get (memory this) (Num top) = Num v)
      by (apply get_Num; auto).
    rewrite (step_commits this operations.load
               (change 1 [Num v] (Num 1)) Hop Hpre).
    + rewrite Hip. f_equal.
      rewrite (committed_split this _ below [top] above [v]);
        fields; auto; try lia.
      rewrite Hip. reflexivity.
    + cbn [requested]. rewrite Ht, Hget. reflexivity.
    + apply defineSafeStateChange_valid; fields; auto.
      * rewrite andb_true_r. apply isInValueRange_spec. eauto.
      * right. rewrite Hip. apply pointer_advances. lia.
  - intros Hneg. apply (step_rejects this operations.load _ Hop Hpre).
    cbn [requested]. rewrite Ht. unfold get.
    destruct (Z.ltb_spec top 0); [reflexivity|lia].
Qed.

Lemma load_operation_reads_memory_witness :
  execute (after [2; 1; 5] 1) =
  (Success operations.load (get (memory (after [2; 1; 5] 1)) (Num 2))
           (change 1 [Num 1] (Num 1)),
   {| stack := [] ++ 1 :: replicate 255 0;
      stackCounter := Z.of_nat (length (@nil Z)) + 1;
      memory := memory (after [2; 1; 5] 1);
      instructionPointer := Num (2 + 1) |}).
Proof.
  refine (proj1 (load_operation_reads_memory
                   (after [2; 1; 5] 1) [] (replicate 255 0) 1 2
                   _ _ _ _ _ _) 1 _ _ _).
  - vm_compute. reflexivity.
  - vm_compute. reflexivity.
  - vm_compute. reflexivity.
  - lia.
  - vm_compute. reflexivity.
  - vm_compute. reflexivity.
  - lia.
  - vm_compute. reflexivity.
  - unfold isInt8. lia.
Defined.

(** X13. With two values on the stack, the second of them a word, and the
    next instruction address [IP + 1] below [memorySize], [store] writes
    the second value to the memory at the address on top, pops both and
    steps to the next instruction; with an address on top that is negative
    or not below [memorySize] the step fails and changes nothing. *)
Theorem store_writes_second_at_top (this : machine) (below above : list Z)
  (second top ip : Z) :
  stack this = below ++ second :: top :: above ->
  stackCounter this = Z.of_nat (length below) + 2 ->
  instructionPointer this = Num ip -> 0 <= ip -> ip + 1 < memorySize ->
  decode this = Ok operations.store ->
  isInt8 second ->
  (0 <= top < memorySize ->
   execute this =
   (Success operations.store (get (memory this) (Num ip))
            {| halt := false; numStackValuesPopped := 2;
               stackValuesPushed := [];
               memoryAddressWritten := Num top;
               memoryValueWritten := Num second;
               instructionPointerDiff := Num 1 |},
    {| stack := below ++ 0 :: 0 :: above;
       stackCounter := Z.of_nat (length below);
       memory := <[Z.to_nat top := second]> (memory this);
       instructionPointer := Num (ip + 1) |}))
  /\ (top < 0 \/ memorySize <= top ->
      execute this = (Failure (Fail fMemoryAddressWritten), this)).
Proof.
  intros Hs Hc Hip H0 H1 Hop Hint.
  destruct (peek_top this below above second top Hs Hc) as [Ht Hsnd].
  assert (Hpre : precondition operations.store this = Ok tt)
    by (apply ensureStackCount_Ok; lia).
  split.
  - intros Htop.
    rewrite (step_commits this operations.store
               {| halt := false; numStackValuesPopped := 2;
                  stackValuesPushed := [];
                  memoryAddressWritten := Num top;
                  memoryValueWritten := Num second;
                  instructionPointerDiff := Num 1 |} Hop Hpre).
    + rewrite Hip. f_equal.
      rewrite (committed_split this _ below [second; top] above []);
        fields; auto; try lia.
      rewrite Hip. unfold set.
      destruct (Z.ltb_spec top 0); [exfalso; lia|].
      rewrite ToInt8_id by exact Hint.
      f_equal. lia.
    + cbn [requested]. rewrite Ht, Hsnd. reflexivity.
    + apply defineSafeStateChange_valid; fields; auto.
      * right. apply isInAddressRange_spec. eauto.
      * right. apply isInValueRange_spec. eauto.
      * right. rewrite Hip. apply pointer_advances. lia.
  - intros Hbad. apply (step_rejects this operations.store _ Hop Hpre).
    cbn [requested]. rewrite Ht, Hsnd.
    unfold Private.defineSafeStateChange. fields.
    cbn [Private.isInStackCount numStackValuesPopped]. cbn [mbind result_bind].
    replace (isInAddressRange (Num top)) with false; [reflexivity|].
    symmetry. apply not_true_is_false. intros H.
    apply isInAddressRange_spec in H as (z & [= <-] & Hz). lia.
Qed.

Lemma store_writes_second_at_top_witness :
  execute (after [2; 77; 2; 9; 4] 2) =
  (Success operations.store (get (memory (after [2; 77; 2; 9; 4] 2)) (Num 4))
           {| halt := false; numStackValuesPopped := 2;
              stackValuesPushed := [];
              memoryAddressWritten := Num 9;
              memoryValueWritten := Num 77;
              instructionPointerDiff := Num 1 |},
   {| stack := [] ++ 0 :: 0 :: replicate 254 0;
      stackCounter := Z.of_nat (length (@nil Z));
      memory := <[Z.to_nat 9 := 77]> (memory (after [2; 77; 2; 9; 4] 2));
      instructionPointer := Num (4 + 1) |}).
Proof.
  refine (proj1 (store_writes_second_at_top
                   (after [2; 77; 2; 9; 4] 2) [] (replicate 254 0) 77 9 4
                   _ _ _ _ _ _ _) _).
  - vm_compute. reflexivity.
  - vm_compute. reflexivity.
  - vm_compute. reflexivity.
  - lia.
  - vm_compute. reflexivity.
  - vm_compute. reflexivity.
  - unfold isInt8. lia.
  - unfold memorySize, wordSize. lia.
Defined.

(** *** Jumps *)

Lemma pointer_outside (z : Z) :
  z < 0 \/ memorySize <= z -> isInAddressRange (Num z) = false.
Proof.
  intros Hbad. apply not_true_is_false. intros H.
  apply isInAddressRange_spec in H as (z' & [= <-] & Hz). lia.
Qed.

(** X14. [jump] pops the address on top of the stack and sets the
    instruction pointer to exactly that address, wherever the pointer was;
    the reported difference is the address less the old pointer.  With a
    negative address on top the step fails and changes nothing. *)
Theorem jump_sets_pointer_to_top (this : machine) (below above : list Z)
  (top ip : Z) :
  stack this = below ++ top :: above ->
  stackCounter this = Z.of_nat (length below) + 1 ->
  instructionPointer this = Num ip ->
  decode this = Ok operations.jump ->
  (0 <= top < memorySize ->
   execute this =
   (Success operations.jump (get (memory this) (Num ip))
            (change 1 [] (Num (top - ip))),
    {| stack := below ++ 0 :: above;
       stackCounter := Z.of_nat (length below);
       memory := memory this;
       instructionPointer := Num top |}))
  /\ (top < 0 \/ memorySize <= top ->
      execute this = (Failure (Fail fInstructionPointerDiff), this)).
Proof.
  intros Hs Hc Hip Hop.
  pose proof (peek_one this below above top Hs Hc) as Ht.
  assert (Hpre : precondition operations.jump this = Ok tt)
    by (apply ensureStackCount_Ok; lia).
  assert (Hreq : requested operations.jump this
                 = change 1 [] (Num (top - ip)))
    by (cbn [requested]; rewrite Ht, Hip; reflexivity).
  split.
  - intros Htop.
    rewrite (step_commits this operations.jump _ Hop Hpre Hreq).
    + rewrite Hip. f_equal.
      rewrite (committed_split this _ below [top] above []);
        fields; auto; try lia.
      rewrite Hip. cbn [JS.add arith]. do 2 f_equal; lia.
    + apply defineSafeStateChange_valid; fields; auto.
      right. rewrite Hip. apply pointer_advances. lia.
  - intros Hbad. apply (step_rejects this operations.jump _ Hop Hpre).
    rewrite Hreq. unfold Private.defineSafeStateChange. fields.
    cbn [Private.isInStackCount numStackValuesPopped]. cbn [mbind result_bind].
    rewrite Hip. cbn [JS.add arith].
    rewrite pointer_outside by lia. reflexivity.
Qed.

Lemma jump_sets_pointer_to_top_witness :
  execute (after [2; 42; 2; 0; 17] 2) =
  (Success operations.jump (get (memory (after [2; 42; 2; 0; 17] 2)) (Num 4))
           (change 1 [] (Num (0 - 4))),
   {| stack := [42] ++ 0 :: replicate 254 0;
      stackCounter := Z.of_nat (length [42]);
      memory := memory (after [2; 42; 2; 0; 17] 2);
      instructionPointer := Num 0 |}).
Proof.
  refine (proj1 (jump_sets_pointer_to_top
                   (after [2; 42; 2; 0; 17] 2) [42] (replicate 254 0) 0 4
                   _ _ _ _) _).
  - vm_compute. reflexivity.
  - vm_compute. reflexivity.
  - vm_compute. reflexivity.
  - vm_compute. reflexivity.
  - unfold memorySize, wordSize. lia.
Defined.

(** X15. With two values on the stack, the condition on top and the
    address below it, [jumpConditionally] pops both: when the condition is
    1 and the address lies in the memory, from 0 to below [memorySize], the
    instruction pointer becomes the address; for every other condition,
    when the next instruction address [IP + 1] is below [memorySize], the
    step only advances to the next instruction. *)
Theorem jumpConditionally_tests_top (this : machine)
  (below above : list Z) (target condition ip : Z) :
  stack this = below ++ target :: condition :: above ->
  stackCounter this = Z.of_nat (length below) + 2 ->
  instructionPointer this = Num ip -> 0 <= ip ->
  decode this = Ok operations.jumpConditionally ->
  (condition = 1 -> 0 <= target < memorySize ->
   execute this =
   (Success operations.jumpConditionally (get (memory this) (Num ip))
            (change 2 [] (Num (target - ip))),
    {| stack := below ++ 0 :: 0 :: above;
       stackCounter := Z.of_nat (length below);
       memory := memory this;
       instructionPointer := Num target |}))
  /\ (condition <> 1 -> ip + 1 < memorySize ->
      execute this =
      (Success operations.jumpConditionally (get (memory this) (Num ip))
               (change 2 [] (Num 1)),
       {| stack := below ++ 0 :: 0 :: above;
          stackCounter := Z.of_nat (length below);
          memory := memory this;
          instructionPointer := Num (ip + 1) |})).
Proof.
  intros Hs Hc Hip H0 Hop.
  destruct (peek_top this below above target condition Hs Hc) as [Ht Hsnd].
  assert (Hpre : precondition operations.jumpConditionally this = Ok tt)
    by (apply ensureStackCount_Ok; lia).
  split.
  - intros -> Htarget.
    rewrite (step_commits this operations.jumpConditionally
               (change 2 [] (Num (target - ip))) Hop Hpre).
    + rewrite Hip. f_equal.
      rewrite (committed_split this _ below [target; 1] above []);
        fields; auto; try lia.
      rewrite Hip. cbn [JS.add arith]. do 2 f_equal; lia.
    + cbn [requested]. rewrite Ht, Hsnd, Hip. reflexivity.
    + apply defineSafeStateChange_valid; fields; auto.
      right. rewrite Hip. apply pointer_advances. lia.
  - intros Hne H1.
    rewrite (step_commits this operations.jumpConditionally
               (change 2 [] (Num 1)) Hop Hpre).
    + rewrite Hip. f_equal.
      rewrite (committed_split this _ below [target; condition] above []);
        fields; auto; try lia.
      rewrite Hip. cbn [JS.add arith]. do 2 f_equal; lia.
    + cbn [requested]. rewrite Ht, Hsnd, Hip. cbn [strictEq].
      destruct (Z.eqb_spec condition 1); [contradiction|reflexivity].
    + apply defineSafeStateChange_valid; fields; auto.
      right. rewrite Hip. apply pointer_advances. lia.
Qed.

Lemma jumpConditionally_tests_top_witness :
  execute (after [2; 0; 2; 5; 18] 2) =
  (Success operations.jumpConditionally
           (get (memory (after [2; 0; 2; 5; 18] 2)) (Num 4))
           (change 2 [] (Num 1)),
   {| stack := [] ++ 0 :: 0 :: replicate 254 0;
      stackCounter := Z.of_nat (length (@nil Z));
      memory := memory (after [2; 0; 2; 5; 18] 2);
      instructionPointer := Num (4 + 1) |}).
Proof.
  refine (proj2 (jumpConditionally_tests_top
                   (after [2; 0; 2; 5; 18] 2) [] (replicate 254 0) 0 5 4
                   _ _ _ _ _) _ _).
  - vm_compute. reflexivity.
  - vm_compute. reflexivity.
  - vm_compute. reflexivity.
  - lia.
  - vm_compute. reflexivity.
  - lia.
  - unfold memorySize, wordSize. lia.
Defined.

(** *** [push], [pop] and [noOperation] *)

(** The step of a [push] that has a free slot above the values. *)
Lemma push_step (this : machine) (below above : list Z)
  (free immediate ip : Z) :
  stack this = below ++ free :: above ->
  stackCounter this = Z.of_nat (length below) ->
  instructionPointer this = Num ip -> 0 <= ip ->
  decode this = Ok operations.push ->
  ip + 2 < memorySize ->
  get (memory this) (Num (ip + 1)) = Num immediate -> isInt8 immediate ->
  execute this =
  (Success operations.push (get (memory this) (Num ip))
           (change 0 [Num immediate] (Num 2)),
   {| stack := below ++ immediate :: above;
      stackCounter := Z.of_nat (length below) + 1;
      memory := memory this;
      instructionPointer := Num (ip + 2) |}).
Proof.
  intros Hs Hc Hip H0 Hop H2 Himm Hint.
  rewrite execute_run, Hop. cbn [Private.getOperationByName].
  rewrite (push_run this ip immediate) by auto.
  rewrite Hip. f_equal.
  rewrite (committed_split this _ below [] (free :: above) [immediate]);
    fields; auto; try lia.
  rewrite Hip. reflexivity.
Qed.

(** X16. With a free slot above the values of the stack, [push] stores the
    word that follows the instruction in that slot, counts it, and steps
    over both cells; in the last two cells of the memory [push] fails and
    changes nothing. *)
Theorem push_stores_immediate (this : machine) (below above : list Z)
  (free immediate ip : Z) :
  stack this = below ++ free :: above ->
  stackCounter this = Z.of_nat (length below) ->
  instructionPointer this = Num ip -> 0 <= ip ->
  decode this = Ok operations.push ->
  (ip + 2 < memorySize ->
   get (memory this) (Num (ip + 1)) = Num immediate -> isInt8 immediate ->
   execute this =
   (Success operations.push (get (memory this) (Num ip))
            (change 0 [Num immediate] (Num 2)),
    {| stack := below ++ immediate :: above;
       stackCounter := Z.of_nat (length below) + 1;
       memory := memory this;
       instructionPointer := Num (ip + 2) |}))
  /\ (memorySize <= ip + 2 ->
      exists e, execute this = (Failure e, this)).
Proof.
  intros Hs Hc Hip H0 Hop. split.
  - intros H2 Himm Hint. apply (push_step this below above free); auto.
  - intros Hend. rewrite execute_run, Hop, requested_shape.
    destruct (precondition operations.push this) as [[]|e];
      cbn [mbind result_bind]; [|eauto].
    destruct (Private.defineSafeStateChange this
                (requested operations.push this)) as [c|e] eqn:E; [|eauto].
    exfalso.
    apply defineSafeStateChange_Ok in E as (_ & _ & _ & _ & _ & [Hh|Hr]).
    + discriminate Hh.
    + cbn [requested change instructionPointerDiff] in Hr.
      rewrite Hip in Hr. cbn [JS.add arith] in Hr.
      rewrite pointer_outside in Hr by lia. discriminate.
Qed.

Lemma push_stores_immediate_witness :
  execute (after [2; 42; 2; 7] 1) =
  (Success operations.push (get (memory (after [2; 42; 2; 7] 1)) (Num 2))
           (change 0 [Num 7] (Num 2)),
   {| stack := [42] ++ 7 :: replicate 254 0;
      stackCounter := Z.of_nat (length [42]) + 1;
      memory := memory (after [2; 42; 2; 7] 1);
      instructionPointer := Num (2 + 2) |}).
Proof.
  refine (proj1 (push_stores_immediate
                   (after [2; 42; 2; 7] 1) [42] (replicate 254 0) 0 7 2
                   _ _ _ _ _) _ _ _).
  - vm_compute. reflexivity.
  - vm_compute. reflexivity.
  - vm_compute. reflexivity.
  - lia.
  - vm_compute. reflexivity.
  - unfold memorySize, wordSize. lia.
  - vm_compute. reflexivity.
  - unfold isInt8. lia.
Defined.

(** X17. On a stack that holds a value, and with the next instruction
    address [IP + 1] below [memorySize], [pop] clears the slot of the top
    value, counts one value less and steps to the next instruction. *)
Theorem pop_clears_top (this : machine) (below above : list Z) (top ip : Z) :
  stack this = below ++ top :: above ->
  stackCounter this = Z.of_nat (length below) + 1 ->
  instructionPointer this = Num ip -> 0 <= ip -> ip + 1 < memorySize ->
  decode this = Ok operations.pop ->
  execute this =
  (Success operations.pop (get (memory this) (Num ip)) (change 1 [] (Num 1)),
   {| stack := below ++ 0 :: above;
      stackCounter := Z.of_nat (length below);
      memory := memory this;
      instructionPointer := Num (ip + 1) |}).
Proof.
  intros Hs Hc Hip H0 H1 Hop.
  rewrite execute_run, Hop. cbn [Private.getOperationByName].
  rewrite (pop_ignores_stack_count this ip) by auto.
  rewrite Hip. f_equal.
  rewrite (committed_split this _ below [top] above []);
    fields; auto; try lia.
  rewrite Hip. cbn [JS.add arith]. do 2 f_equal. lia.
Qed.

Lemma pop_clears_top_witness :
  execute (after [2; 42; 3] 1) =
  (Success operations.pop (get (memory (after [2; 42; 3] 1)) (Num 2))
           (change 1 [] (Num 1)),
   {| stack := [] ++ 0 :: replicate 255 0;
      stackCounter := Z.of_nat (length (@nil Z));
      memory := memory (after [2; 42; 3] 1);
      instructionPointer := Num (2 + 1) |}).
Proof.
  apply (pop_clears_top (after [2; 42; 3] 1) [] (replicate 255 0) 42 2).
  - vm_compute. reflexivity.
  - vm_compute. reflexivity.
  - vm_compute. reflexivity.
  - lia.
  - vm_compute. reflexivity.
  - vm_compute. reflexivity.
Defined.

(** X18. With the next instruction address [IP + 1] below [memorySize],
    [noOperation] changes nothing but the instruction pointer, which
    advances by one, whatever the stack holds and counts. *)
Theorem noOperation_only_advances (this : machine) (ip : Z) :
  instructionPointer this = Num ip -> 0 <= ip -> ip + 1 < memorySize ->
  decode this = Ok operations.noOperation ->
  execute this =
  (Success operations.noOperation (get (memory this) (Num ip))
           (change 0 [] (Num 1)),
   withInstructionPointer (Num (ip + 1)) this).
Proof.
  intros Hip H0 H1 Hop.
  rewrite (step_commits this operations.noOperation
             (change 0 [] (Num 1)) Hop); try reflexivity.
  - rewrite Hip. f_equal. unfold committed, withInstructionPointer. fields.
    cbn [pushList]. rewrite Z.sub_0_r, fill_nothing by lia.
    rewrite Hip, Z.add_0_r. reflexivity.
  - apply defineSafeStateChange_valid; fields; auto.
    right. rewrite Hip. apply pointer_advances. lia.
Qed.

Lemma noOperation_only_advances_witness :
  execute (after [1; 1] 1) =
  (Success operations.noOperation (get (memory (after [1; 1] 1)) (Num 1))
           (change 0 [] (Num 1)),
   withInstructionPointer (Num (1 + 1)) (after [1; 1] 1)).
Proof.
  apply (noOperation_only_advances (after [1; 1] 1) 1).
  - vm_compute. reflexivity.
  - lia.
  - unfold memorySize, wordSize. lia.
  - vm_compute. reflexivity.
Defined.

(** X29. No operation but [halt] and the two jumps can be executed in the
    last cell of the memory: when the next instruction address [IP + 1] is
    not below [memorySize], the step of any other operation fails and
    changes nothing, whatever the stack holds. *)
Theorem step_in_last_cell_fails (this : machine) (o : operations.t)
  (ip : Z) :
  instructionPointer this = Num ip -> memorySize <= ip + 1 ->
  decode this = Ok o ->
  o <> operations.halt -> o <> operations.jump ->
  o <> operations.jumpConditionally ->
  exists e, execute this = (Failure e, this).
Proof.
  intros Hip Hout Hop Hhalt Hjump Hcond.
  rewrite execute_run, Hop, requested_shape.
  destruct (precondition o this) as [[]|e]; cbn [mbind result_bind];
    [|eauto].
  destruct (Private.defineSafeStateChange this (requested o this))
    as [c|e] eqn:E; [exfalso|eauto].
  apply defineSafeStateChange_Ok in E as (_ & _ & _ & _ & _ & Hp).
  destruct o; try contradiction;
    cbn [requested change halt instructionPointerDiff] in Hp;
    (destruct Hp as [Hp|Hp]; [discriminate Hp|]);
    rewrite Hip in Hp;
    apply isInAddressRange_spec in Hp as (z & [= <-] & Hr); lia.
Qed.

Lemma step_in_last_cell_fails_witness :
  exists e,
    execute (after (replicate 256 1) 255)
    = (Failure e, after (replicate 256 1) 255).
Proof.
  apply (step_in_last_cell_fails (after (replicate 256 1) 255)
           operations.noOperation 255).
  - vm_compute. reflexivity.
  - vm_compute. discriminate.
  - vm_compute. reflexivity.
  - discriminate.
  - discriminate.
  - discriminate.
Defined.

(** ** Further properties of the assembler *)

(** *** Traversals that may throw *)

Lemma mapWithIndex_Ok {A B} (f : A -> nat -> result B) (l : list A) :
  forall (i : nat) (ys : list B),
    Assembly.mapWithIndex f i l = Ok ys ->
    Forall2 (fun x y => exists j, f x j = Ok y) l ys.
Proof.
  induction l as [|x l IH]; intros i ys; cbn [Assembly.mapWithIndex].
  - intros [= <-]. constructor.
  - destruct (f x i) as [y|e] eqn:Ex; cbn [mbind result_bind];
      [|discriminate].
    destruct (Assembly.mapWithIndex f (S i) l) as [ys'|e] eqn:El;
      cbn [mbind result_bind]; [|discriminate].
    intros [= <-]. constructor; [eauto|]. eapply IH. exact El.
Qed.

Lemma mapWithIndex_all {A B} (f : A -> nat -> result B) (l : list A) :
  forall (i : nat) (ys : list B),
    Forall2 (fun x y => forall j, f x j = Ok y) l ys ->
    Assembly.mapWithIndex f i l = Ok ys.
Proof.
  induction l as [|x l IH]; intros i ys H; inversion H as [|? y ? ys' Hx Hl];
    subst; cbn [Assembly.mapWithIndex]; [reflexivity|].
  rewrite Hx. cbn [mbind result_bind]. rewrite (IH (S i) ys' Hl).
  reflexivity.
Qed.

Lemma Forall2_compose {A B C} (R : A -> B -> Prop) (S : B -> C -> Prop)
  (l1 : list A) :
  forall (l2 : list B) (l3 : list C),
    Forall2 R l1 l2 -> Forall2 S l2 l3 ->
    Forall2 (fun x z => exists y, R x y /\ S y z) l1 l3.
Proof.
  induction l1 as [|x l1 IH]; intros l2 l3 H12 H23;
    inversion H12; subst; inversion H23; subst; constructor; eauto.
Qed.

(** *** Parse trees *)

Lemma tokenize_Ok (line : string) (j : nat) (token : string * option string) :
  Assembly.tokenize line j = Ok token -> firstCode line = Some (fst token).
Proof.
  unfold Assembly.tokenize. rewrite <- exec_firstCode.
  destruct (Assembly.exec line) as [[code comment]|]; [|discriminate].
  intros [= <-]. reflexivity.
Qed.

Lemma classify_Ok (token : string * option string) (j : nat)
  (n : Assembly.node) :
  Assembly.classify token j = Ok n ->
  Assembly.code n = fst token
  /\ Assembly.comment n = snd token
  /\ ((Assembly.isNaN (Assembly.parseInt (fst token)) = false
       /\ Assembly.type n = "data"%string
       /\ Assembly.value n = Assembly.parseInt (fst token))
      \/ (Assembly.isNaN (Assembly.parseInt (fst token)) = true
          /\ exists o, In (o, fst token) Assembly.mnemonics
                       /\ Assembly.type n = operations.name o
                       /\ Assembly.value n = undefined)).
Proof.
  destruct token as [code comment]. unfold Assembly.classify. cbn [fst snd].
  destruct (Assembly.isNaN (Assembly.parseInt code)) eqn:E; cbn [negb].
  - destruct (List.find _ Assembly.mnemonics) as [[o m]|] eqn:F;
      [|discriminate].
    intros [= <-]. cbn. apply find_some in F as [Hin Heq].
    apply String.eqb_eq in Heq. subst m.
    repeat split. right. split; [reflexivity|]. exists o. auto.
  - intros [= <-]. cbn. repeat split. left. auto.
Qed.

Lemma parseProgram_Ok (programText : string) (nodes : list Assembly.node) :
  Assembly.parseProgram programText = Ok nodes ->
  Z.of_nat (length (Assembly.lines programText)) <= memorySize
  /\ Forall2 nodeOf (Assembly.lines programText) nodes.
Proof.
  unfold Assembly.parseProgram, throwIf.
  destruct (Z.gtb_spec (Z.of_nat (length (Assembly.lines programText)))
              memorySize) as [Hlong|Hshort]; cbn [mbind result_bind];
    [discriminate|].
  destruct (Assembly.mapWithIndex Assembly.tokenize 0
              (Assembly.lines programText)) as [tokens|e] eqn:Et;
    cbn [mbind result_bind]; [|discriminate].
  intros Hc. split; [exact Hshort|].
  apply mapWithIndex_Ok in Et. apply mapWithIndex_Ok in Hc.
  pose proof (Forall2_compose _ _ _ _ _ Et Hc) as H.
  clear Et Hc.
  clear Hshort.
  induction H as [|line n ls ns (token & [j Ht] & [j' Hn]) _ IH];
    [constructor|]. constructor; [|exact IH].
  apply tokenize_Ok in Ht. apply classify_Ok in Hn as (Hcode & _ & Hkind).
  unfold nodeOf. rewrite Hcode. split; [exact Ht|].
  destruct Hkind as [(Hnum & Htype & Hvalue)|Hop]; [left|right; exact Hop].
  split; [exact Hnum|]. split; [exact Htype|].
  intros z Hz. rewrite Hvalue, Hz. split; [reflexivity|].
  change (2 ^ 53) with 9007199254740992. intros Hbig.
  rewrite isInValueRange_Num. lia.
Qed.

(** X19. When a text parses, the parse tree has one node for each of its
    non-blank trimmed lines, in their order, and at most [memorySize] of
    them; the code of a node is the first run of code characters of its
    line; a data node carries the integer the code starts with when its
    magnitude is at most [2 ^ 53], and beyond that a number outside the
    range of a word; the type of any other node is the operation of the
    mnemonic, and it carries no value.  A text of more than [memorySize]
    such lines does not parse. *)
Theorem parse_tree_follows_lines (programText : string) :
  (forall nodes : list Assembly.node,
      Assembly.parseProgram programText = Ok nodes ->
      length nodes = length (Assembly.lines programText)
      /\ Z.of_nat (length nodes) <= memorySize
      /\ Forall2 nodeOf (Assembly.lines programText) nodes)
  /\ (memorySize < Z.of_nat (length (Assembly.lines programText)) ->
      Assembly.parseProgram programText = Throw ProgramLengthExceedsMemory).
Proof.
  split.
  - intros nodes H. apply parseProgram_Ok in H as [Hlen Hall].
    pose proof (Forall2_length Hall) as Hl.
    split; [auto|]. split; [lia|exact Hall].
  - intros Hlong. unfold Assembly.parseProgram, throwIf.
    destruct (Z.gtb_spec (Z.of_nat (length (Assembly.lines programText)))
                memorySize); [reflexivity|lia].
Qed.

Lemma parse_tree_follows_lines_witness :
  length [Assembly.Node "pu" "push" undefined None;
          Assembly.Node "42" "data" (Num 42) (Some " answer"%string)]
  = length (Assembly.lines
              ("  pu" ++ Controller.lineFeed ++ Controller.lineFeed
               ++ "42 # answer"))
  /\ Z.of_nat (length [Assembly.Node "pu" "push" undefined None;
                       Assembly.Node "42" "data" (Num 42)
                                     (Some " answer"%string)])
     <= memorySize
  /\ Forall2 nodeOf
       (Assembly.lines ("  pu" ++ Controller.lineFeed ++ Controller.lineFeed
                        ++ "42 # answer"))
       [Assembly.Node "pu" "push" undefined None;
        Assembly.Node "42" "data" (Num 42) (Some " answer"%string)].
Proof.
  apply (proj1 (parse_tree_follows_lines
                  ("  pu" ++ Controller.lineFeed ++ Controller.lineFeed
                   ++ "42 # answer"))).
  vm_compute. reflexivity.
Defined.

(** *** Generated words *)

Lemma findIndex_lt {A} (p : A -> bool) (l : list A) (i : nat) :
  StackMachine.findIndex p l = Some i -> (i < length l)%nat.
Proof.
  revert i. induction l as [|x l IH]; intros i; cbn; [discriminate|].
  destruct (p x); [intros [= <-]; lia|].
  destruct (StackMachine.findIndex p l) as [k|]; [|discriminate].
  cbn. intros [= <-]. specialize (IH k eq_refl). lia.
Qed.

Lemma getOpCodeByName_range (opName : string) (c : Z) :
  getOpCodeByName opName = Ok c -> 0 <= c <= 18.
Proof.
  unfold getOpCodeByName.
  destruct (StackMachine.findIndex _ _) as [i|] eqn:E; [|discriminate].
  intros [= <-]. apply findIndex_lt in E. cbn in E. lia.
Qed.

Lemma emits_isInt8 (n : Assembly.node) (w : Z) : emits n w -> isInt8 w.
Proof.
  unfold emits. destruct (String.eqb _ _).
  - intros [_ H]. exact H.
  - intros H. apply getOpCodeByName_range in H. unfold isInt8. lia.
Qed.

Lemma generate_node_Ok (n : Assembly.node) (j : nat) (v : value) :
  (if String.eqb (Assembly.type n) "data"
   then throwIf (negb (isInValueRange (Assembly.value n)))
                (DataValueExceedsRange j);;
        Ok (Assembly.value n)
   else Num <$> getOpCodeByName (Assembly.type n)) = Ok v ->
  exists w, v = Num w /\ emits n w.
Proof.
  unfold emits. destruct (String.eqb _ _).
  - unfold throwIf.
    destruct (isInValueRange (Assembly.value n)) eqn:E;
      cbn [negb mbind result_bind]; [|discriminate].
    intros [= <-]. apply isInValueRange_spec in E as (w & -> & Hw). eauto.
  - destruct (getOpCodeByName _) as [c|e]; [|discriminate].
    intros [= <-]. eauto.
Qed.

Lemma generate_node_emits (n : Assembly.node) (w : Z) (j : nat) :
  emits n w ->
  (if String.eqb (Assembly.type n) "data"
   then throwIf (negb (isInValueRange (Assembly.value n)))
                (DataValueExceedsRange j);;
        Ok (Assembly.value n)
   else Num <$> getOpCodeByName (Assembly.type n)) = Ok (Num w).
Proof.
  unfold emits. destruct (String.eqb _ _).
  - intros [-> Hw]. unfold throwIf.
    replace (isInValueRange (Num w)) with true
      by (symmetry; apply isInValueRange_spec; eauto).
    reflexivity.
  - intros ->. reflexivity.
Qed.

Lemma generateInstructions_Ok (parseTree : list Assembly.node)
  (ws : list Z) :
  Assembly.generateInstructions parseTree = Ok ws <->
  Forall2 emits parseTree ws.
Proof.
  unfold Assembly.generateInstructions. split.
  - destruct (Assembly.mapWithIndex _ 0%nat parseTree) as [vs|e] eqn:E;
      cbn [mbind result_bind]; [|discriminate].
    intros [= <-]. apply mapWithIndex_Ok in E.
    induction E as [|n v tree vs [j Hn] _ IH]; cbn [List.map];
      [constructor|]. constructor; [|exact IH].
    apply generate_node_Ok in Hn as (w & -> & Hw).
    rewrite ToInt8_id by (eapply emits_isInt8; eauto). exact Hw.
  - intros H.
    rewrite (mapWithIndex_all _ parseTree 0%nat (Num <$> ws)).
    + cbn [mbind result_bind]. f_equal.
      clear -H. induction H as [|n w tree ws Hn _ IH]; [reflexivity|].
      cbn [fmap list_fmap List.map].
      rewrite ToInt8_id by (eapply emits_isInt8; eauto).
      f_equal. exact IH.
    + clear -H. induction H as [|n w tree ws Hn _ IH];
        cbn [fmap list_fmap]; [constructor|]. constructor; [|exact IH].
      intros j. apply generate_node_emits. exact Hn.
Qed.

(** X20. Code generation succeeds exactly when every data node carries a
    word and the type of every other node names an operation; the array it
    returns has one word for each node, in their order: the value of a data
    node, unchanged, and the position of the operation among the
    operations. *)
Theorem generated_words_follow_nodes (parseTree : list Assembly.node)
  (ws : list Z) :
  Assembly.generateInstructions parseTree = Ok ws <->
  Forall2 emits parseTree ws.
Proof. apply generateInstructions_Ok. Qed.

Lemma generated_words_follow_nodes_witness :
  Forall2 emits
    [Assembly.Node "pu" "push" undefined None;
     Assembly.Node "-5" "data" (Num (-5)) None]
    [2; -5].
Proof.
  apply (proj1 (generated_words_follow_nodes
                  [Assembly.Node "pu" "push" undefined None;
                   Assembly.Node "-5" "data" (Num (-5)) None] [2; -5])).
  vm_compute. reflexivity.
Defined.

(** X21. The assembler and the machine agree on the codes: for every
    operation, its mnemonic assembles to one word, and the machine decodes
    that word to the operation. *)
Theorem mnemonic_assembles_to_its_operation (o : operations.t) :
  exists (mnemonic : string) (w : Z),
    In (o, mnemonic) Assembly.mnemonics
    /\ assemble mnemonic = Ok [w]
    /\ getOpNameByCode (Num w) = Ok o.
Proof.
  destruct o; eexists; eexists;
    (split; [cbn; tauto|]);
    (split; [vm_compute; reflexivity|reflexivity]).
Qed.

(** *** From the text to the memory *)

Lemma Forall2_emits_isInt8 (tree : list Assembly.node) (ws : list Z) :
  Forall2 emits tree ws -> Forall isInt8 ws.
Proof.
  induction 1 as [|n w tree ws Hn _ IH]; constructor; auto.
  eapply emits_isInt8; eauto.
Qed.

(** X22. What the assembler makes of a text always fits the machine: the
    array has one word for each non-blank line, and unless it is empty,
    [load] accepts it and the memory then starts with exactly these words;
    the rest of the memory, the stack, its counter and the instruction
    pointer stay. *)
Theorem assembled_program_loads (programText : string) (ws : list Z)
  (this : machine) :
  assemble programText = Ok ws ->
  length (memory this) = Z.to_nat memorySize ->
  length ws = length (Assembly.lines programText)
  /\ (ws <> [] ->
      load (Int8Array ws) this =
      (Ok tt,
       {| stack := stack this; stackCounter := stackCounter this;
          memory := ws ++ drop (length ws) (memory this);
          instructionPointer := instructionPointer this |})).
Proof.
  unfold assemble. intros Hasm Hmem.
  destruct (Assembly.parseProgram programText) as [tree|e] eqn:Hp;
    cbn [mbind result_bind] in Hasm; [|discriminate].
  apply parseProgram_Ok in Hp as [Hlen Hnodes].
  apply generateInstructions_Ok in Hasm.
  pose proof (Forall2_length Hnodes) as L1.
  pose proof (Forall2_length Hasm) as L2.
  split; [lia|]. intros Hne. unfold load.
  change memorySize with 256 in *.
  destruct (Z.eqb_spec (Z.of_nat (length ws)) 0) as [Hz|Hnz].
  - destruct ws; [congruence|cbn in Hz; lia].
  - destruct (Z.gtb_spec (Z.of_nat (length ws)) 256) as [Hgt|Hle];
      [exfalso; lia|].
    rewrite copyWords_run. unfold setMemory.
    pose proof (pushList_words ws [] (memory this)
                  (Forall2_emits_isInt8 _ _ Hasm)) as Hpush.
    cbn [app length] in Hpush. change (Z.of_nat 0) with 0 in Hpush.
    rewrite Hpush by lia. reflexivity.
Qed.

Lemma assembled_program_loads_witness :
  length [2; 42; 17]
  = length (Assembly.lines
              ("pu" ++ Controller.lineFeed ++ "42" ++ Controller.lineFeed
               ++ "ju"))
  /\ ([2; 42; 17] <> [] ->
      load (Int8Array [2; 42; 17]) new =
      (Ok tt,
       {| stack := stack new; stackCounter := stackCounter new;
          memory := [2; 42; 17] ++ drop (length [2; 42; 17]) (memory new);
          instructionPointer := instructionPointer new |})).
Proof.
  apply (assembled_program_loads
           ("pu" ++ Controller.lineFeed ++ "42" ++ Controller.lineFeed ++ "ju")
           [2; 42; 17] new).
  - vm_compute. reflexivity.
  - reflexivity.
Defined.

(** *** Lines *)

Lemma split_single (s : string) :
  hasLineFeed s = false -> Assembly.split s = [s].
Proof.
  induction s as [|c s IH]; [reflexivity|]. cbn [hasLineFeed].
  intros H. apply orb_false_iff in H as [Hc Hs].
  cbn [Assembly.split]. rewrite Hc, (IH Hs). reflexivity.
Qed.

Lemma split_append (x rest : string) :
  hasLineFeed x = false ->
  Assembly.split (x ++ String "010" rest) = x :: Assembly.split rest.
Proof.
  induction x as [|c x IH]; [reflexivity|]. cbn [hasLineFeed].
  intros H. apply orb_false_iff in H as [Hc Hx].
  cbn [String.append Assembly.split]. rewrite Hc, (IH Hx). reflexivity.
Qed.

Lemma split_pieces (s : string) :
  Forall (fun piece => hasLineFeed piece = false) (Assembly.split s).
Proof.
  induction s as [|c s IH]; [repeat constructor|].
  cbn [Assembly.split]. destruct (Assembly.isLineFeed c) eqn:Hc.
  - constructor; [reflexivity|exact IH].
  - destruct (Assembly.split s) as [|first others].
    + repeat constructor. cbn. rewrite Hc. reflexivity.
    + inversion IH as [|? ? Hf Ho]; subst. constructor; [|exact Ho].
      cbn. rewrite Hc, Hf. reflexivity.
Qed.

Lemma split_join (l : list string) :
  l <> [] ->
  Forall (fun piece => hasLineFeed piece = false) l ->
  Assembly.split (Controller.join Controller.lineFeed l) = l.
Proof.
  induction l as [|x l IH]; [congruence|]. intros _ H.
  inversion H as [|? ? Hx Hl]; subst.
  destruct l as [|y l].
  - cbn [Controller.join]. apply split_single. exact Hx.
  - change (Controller.join Controller.lineFeed (x :: y :: l))
      with (x ++ String "010" (Controller.join Controller.lineFeed (y :: l)))%string.
    rewrite split_append by exact Hx. f_equal. apply IH; [discriminate|exact Hl].
Qed.

Lemma trimStart_keeps (s : string) :
  hasLineFeed s = false -> hasLineFeed (Assembly.trimStart s) = false.
Proof.
  induction s as [|c s IH]; [reflexivity|]. intros H.
  cbn [Assembly.trimStart]. destruct (Assembly.isSpace c); [|exact H].
  cbn [hasLineFeed] in H. apply orb_false_iff in H as [_ Hs]. auto.
Qed.

Lemma trimEnd_keeps (s : string) :
  hasLineFeed s = false -> hasLineFeed (Assembly.trimEnd s) = false.
Proof.
  induction s as [|c s IH]; [reflexivity|]. cbn [hasLineFeed]. intros H.
  apply orb_false_iff in H as [Hc Hs]. cbn [Assembly.trimEnd].
  destruct (Assembly.isSpace c && _); [reflexivity|].
  cbn [hasLineFeed]. rewrite Hc, (IH Hs). reflexivity.
Qed.

Lemma trimStart_head (s : string) :
  match Assembly.trimStart s with
  | EmptyString => True
  | String c _ => Assembly.isSpace c = false
  end.
Proof.
  induction s as [|c s IH]; [exact I|]. cbn [Assembly.trimStart].
  destruct (Assembly.isSpace c) eqn:E; [exact IH|exact E].
Qed.

Lemma trimEnd_twice (s : string) :
  Assembly.trimEnd (Assembly.trimEnd s) = Assembly.trimEnd s.
Proof.
  induction s as [|c s IH]; [reflexivity|]. cbn [Assembly.trimEnd].
  destruct (Assembly.isSpace c && Assembly.isEmpty (Assembly.trimEnd s))
    eqn:E; [reflexivity|].
  cbn [Assembly.trimEnd]. rewrite IH, E. reflexivity.
Qed.

Lemma trim_twice (s : string) :
  Assembly.trim (Assembly.trim s) = Assembly.trim s.
Proof.
  unfold Assembly.trim. pose proof (trimStart_head s) as H.
  destruct (Assembly.trimStart s) as [|c t]; [reflexivity|].
  cbn [Assembly.trimEnd]. rewrite H. cbn [andb Assembly.trimStart].
  rewrite H. cbn [Assembly.trimEnd]. rewrite trimEnd_twice, H. reflexivity.
Qed.

Lemma filter_trim_filter (l : list string) :
  List.filter (fun line => negb (Assembly.isEmpty line))
    (List.map Assembly.trim
       (List.filter (fun line => negb (Assembly.isEmpty line)) l))
  = List.filter (fun line => negb (Assembly.isEmpty line))
      (List.map Assembly.trim l).
Proof.
  induction l as [|x l IH]; [reflexivity|].
  cbn [List.filter List.map]. destruct x as [|c x].
  - cbn. exact IH.
  - cbn [Assembly.isEmpty negb List.map List.filter]. rewrite IH.
    reflexivity.
Qed.

(** X23. The controller's [#unindentProgram] does not change what the
    assembler sees: the unindented text has the same non-blank trimmed
    lines as the text itself, and so parses to the same tree or fails with
    the same error. *)
Theorem unindentProgram_keeps_lines (program : string) :
  Assembly.lines (Controller.unindentProgram program) = Assembly.lines program
  /\ Assembly.parseProgram (Controller.unindentProgram program)
     = Assembly.parseProgram program.
Proof.
  assert (H : Assembly.lines (Controller.unindentProgram program)
              = Assembly.lines program).
  { unfold Assembly.lines at 2. rewrite <- filter_trim_filter.
    unfold Controller.unindentProgram, Assembly.lines.
    set (kept := List.filter _ (Assembly.split program)).
    assert (Hkept : Forall (fun piece => hasLineFeed piece = false)
                           (List.map Assembly.trim kept)).
    { apply Forall_forall. intros piece Hin.
      apply in_map_iff in Hin as (line & <- & Hin).
      apply filter_In in Hin as [Hin _].
      unfold Assembly.trim. apply trimEnd_keeps, trimStart_keeps.
      pose proof (split_pieces program) as Hall.
      rewrite Forall_forall in Hall. apply Hall. exact Hin. }
    destruct (List.map Assembly.trim kept) as [|x l] eqn:E; [reflexivity|].
    rewrite split_join by (auto; discriminate).
    rewrite <- E. clear.
    induction kept as [|y kept IH]; [reflexivity|].
    cbn [List.map List.filter]. rewrite trim_twice, IH. reflexivity. }
  split; [exact H|]. unfold Assembly.parseProgram. rewrite H. reflexivity.
Qed.

(** *** Blank texts *)

Lemma lineFeed_isSpace (c : ascii) :
  Assembly.isLineFeed c = true -> Assembly.isSpace c = true.
Proof.
  destruct c as [[] [] [] [] [] [] [] []]; vm_compute;
    intros H; (reflexivity || discriminate H).
Qed.

Lemma trimStart_empty (s : string) :
  Assembly.isEmpty (Assembly.trimStart s) = allSpace s.
Proof.
  induction s as [|c s IH]; [reflexivity|].
  cbn [Assembly.trimStart allSpace].
  destruct (Assembly.isSpace c); [exact IH|reflexivity].
Qed.

Lemma trim_empty (s : string) :
  Assembly.isEmpty (Assembly.trim s) = allSpace s.
Proof.
  rewrite <- trimStart_empty. unfold Assembly.trim.
  pose proof (trimStart_head s) as H.
  destruct (Assembly.trimStart s) as [|c t]; [reflexivity|].
  cbn [Assembly.trimEnd]. rewrite H. reflexivity.
Qed.

Lemma split_allSpace (s : string) :
  forallb allSpace (Assembly.split s) = allSpace s.
Proof.
  induction s as [|c s IH]; [reflexivity|].
  cbn [Assembly.split allSpace].
  destruct (Assembly.isLineFeed c) eqn:Hc.
  - rewrite (lineFeed_isSpace c Hc). cbn. exact IH.
  - destruct (Assembly.split s) as [|first others].
    + cbn in IH |- *. rewrite <- IH, !andb_true_r. reflexivity.
    + cbn [forallb allSpace] in IH |- *. rewrite <- IH.
      rewrite andb_assoc. reflexivity.
Qed.

Lemma lines_nil (programText : string) :
  Assembly.lines programText = [] <-> allSpace programText = true.
Proof.
  rewrite <- split_allSpace. unfold Assembly.lines.
  induction (Assembly.split programText) as [|x l IH]; [tauto|].
  cbn [List.map List.filter forallb]. rewrite trim_empty.
  destruct (allSpace x); cbn [negb andb]; [exact IH|].
  split; discriminate.
Qed.

(** X24. A text assembles to the empty array exactly when it holds white
    space only; [load] rejects the empty array with a [RangeError] and
    leaves the instance as it was. *)
Theorem blank_text_assembles_to_nothing (programText : string)
  (this : machine) :
  (assemble programText = Ok [] <-> allSpace programText = true)
  /\ load (Int8Array []) this = (Throw ProgramEmpty, this)
  /\ errorClass ProgramEmpty = RangeError.
Proof.
  split; [|split; reflexivity]. rewrite <- lines_nil. split.
  - unfold assemble. intros Hasm.
    destruct (Assembly.parseProgram programText) as [tree|e] eqn:Hp;
      cbn [mbind result_bind] in Hasm; [|discriminate].
    apply parseProgram_Ok in Hp as [_ Hnodes].
    apply generateInstructions_Ok in Hasm.
    pose proof (Forall2_length Hnodes) as L1.
    pose proof (Forall2_length Hasm) as L2.
    destruct (Assembly.lines programText); [reflexivity|].
    cbn in L1, L2. lia.
  - intros H. unfold assemble, Assembly.parseProgram. rewrite H.
    reflexivity.
Qed.

Lemma blank_text_assembles_to_nothing_witness :
  assemble ("  " ++ Controller.lineFeed ++ " ") = Ok [].
Proof.
  apply (proj1 (blank_text_assembles_to_nothing
                  ("  " ++ Controller.lineFeed ++ " ") new)).
  vm_compute. reflexivity.
Defined.

(** ** Programs *)

Lemma code_decodes (o : operations.t) (c : Z) :
  getOpCodeByName (operations.name o) = Ok c ->
  getOpNameByCode (Num c) = Ok o.
Proof.
  destruct o; vm_compute; intros [= <-]; reflexivity.
Qed.

Lemma load_words (ws : list Z) (this : machine) :
  Forall isInt8 ws ->
  1 <= Z.of_nat (length ws) <= Z.of_nat (length (memory this)) ->
  Z.of_nat (length ws) <= memorySize ->
  load (Int8Array ws) this =
  (Ok tt,
   {| stack := stack this; stackCounter := stackCounter this;
      memory := ws ++ drop (length ws) (memory this);
      instructionPointer := instructionPointer this |}).
Proof.
  intros Hws Hlen Hmax. unfold load.
  destruct (Z.eqb_spec (Z.of_nat (length ws)) 0); [exfalso; lia|].
  destruct (Z.gtb_spec (Z.of_nat (length ws)) memorySize); [exfalso; lia|].
  rewrite copyWords_run. unfold setMemory.
  pose proof (pushList_words ws [] (memory this) Hws) as Hpush.
  cbn [app length] in Hpush. change (Z.of_nat 0) with 0 in Hpush.
  rewrite Hpush by lia. reflexivity.
Qed.

(** X25. The operand pushed last is the top operand: on a fresh instance,
    the program that pushes [b], pushes [a] and then applies an operation
    of two operands leaves the single value [a + b], [a - b], [a * b] or
    the truth value of [a] against [b] on the stack, after three steps,
    provided that value is a word. *)
Theorem push_push_operate (o : operations.t) (f : Z -> Z -> Z) (a b c : Z) :
  isInt8 a -> isInt8 b ->
  binary o = Some f ->
  getOpCodeByName (operations.name o) = Ok c ->
  isInt8 (f a b) ->
  after [2; b; 2; a; c] 3 =
  {| stack := f a b :: replicate 255 0;
     stackCounter := 1;
     memory := [2; b; 2; a; c] ++ replicate 251 0;
     instructionPointer := Num 5 |}.
Proof.
  intros Ha Hb Hf Hc Hr.
  assert (Hc8 : isInt8 c)
    by (apply getOpCodeByName_range in Hc; unfold isInt8; lia).
  assert (Hws : Forall isInt8 [2; b; 2; a; c])
    by (repeat (constructor; [unfold isInt8 in *; lia|]); constructor).
  unfold after.
  rewrite (load_words [2; b; 2; a; c] new Hws);
    [|vm_compute; split; discriminate|vm_compute; discriminate].
  change (steps 3 ?m) with (snd (execute (snd (execute (snd (execute m)))))).
  cbn [snd]. change (drop _ (memory new)) with (replicate 251 0).
  assert (Hsize : forall ip, ip < 256 -> ip < memorySize) by (intros; assumption).
  pose proof (push_step
                {| stack := stack new;
                   stackCounter := stackCounter new;
                   memory := [2; b; 2; a; c] ++ replicate 251 0;
                   instructionPointer := instructionPointer new |}
                [] (replicate 255 0) 0 b 0
                eq_refl eq_refl eq_refl ltac:(lia) eq_refl
                (Hsize (0 + 2) ltac:(lia)) eq_refl Hb) as E1.
  rewrite E1. cbn [snd memory]. clear E1.
  pose proof (push_step
                {| stack := [] ++ b :: replicate 255 0;
                   stackCounter := Z.of_nat (length (@nil Z)) + 1;
                   memory := [2; b; 2; a; c] ++ replicate 251 0;
                   instructionPointer := Num (0 + 2) |}
                [b] (replicate 254 0) 0 a 2
                eq_refl eq_refl eq_refl ltac:(lia) eq_refl
                (Hsize (2 + 2) ltac:(lia)) eq_refl Ha) as E2.
  rewrite E2. cbn [snd memory]. clear E2.
  pose proof (binary_step
                {| stack := [b] ++ a :: replicate 254 0;
                   stackCounter := Z.of_nat (length [b]) + 1;
                   memory := [2; b; 2; a; c] ++ replicate 251 0;
                   instructionPointer := Num (2 + 2) |}
                o f [] (replicate 254 0) b a 4
                eq_refl eq_refl eq_refl ltac:(lia)
                (Hsize (4 + 1) ltac:(lia)) (code_decodes o c Hc) Hf Hr) as E3.
  rewrite E3. reflexivity.
Qed.

Lemma push_push_operate_witness :
  after [2; 3; 2; 4; 7] 3 =
  {| stack := (4 - 3) :: replicate 255 0;
     stackCounter := 1;
     memory := [2; 3; 2; 4; 7] ++ replicate 251 0;
     instructionPointer := Num 5 |}.
Proof.
  apply (push_push_operate operations.subtract
           (fun top second => top - second) 4 3 7).
  - unfold isInt8. lia.
  - unfold isInt8. lia.
  - reflexivity.
  - vm_compute. reflexivity.
  - unfold isInt8. lia.
Defined.

(** *** The upper half of the memory *)

Lemma add_sub_in_range (ip target : value) :
  isInAddressRange (JS.add ip (JS.sub target ip)) = true ->
  exists t, target = Num t /\ JS.add ip (JS.sub target ip) = Num t.
Proof.
  destruct ip as [i| |], target as [t| |]; cbn; try discriminate.
  intros _. exists t. split; [reflexivity|]. f_equal. lia.
Qed.

(** X26. A jump never lands in the upper half of the memory: after a
    successful [jump], or a [jumpConditionally] with the condition 1, the
    instruction pointer is the address that was on the stack, and it lies
    between 0 and 127, for the stack holds 8-bit words. *)
Theorem jump_lands_in_lower_half (this this' : machine) (o : operations.t)
  (opCode : value) (c : stateChange) :
  wellFormed this ->
  execute this = (Success o opCode c, this') ->
  (o = operations.jump
   \/ (o = operations.jumpConditionally /\ Private.peek this 1 = Num 1)) ->
  exists target,
    instructionPointer this' = Num target
    /\ 0 <= target <= 127
    /\ (o = operations.jump -> Private.peek this 1 = Num target)
    /\ (o = operations.jumpConditionally ->
        Private.peek this 2 = Num target).
Proof.
  intros Hwf H Ho.
  apply execute_Success in H as (_ & _ & Hval & -> & ->).
  apply defineSafeStateChange_Ok in Hval as (_ & _ & _ & _ & _ & [Hh|Hr]);
    [destruct Ho as [->|[-> _]]; discriminate Hh|].
  unfold committed. cbn [instructionPointer].
  destruct Ho as [->|[-> Hcond]]; cbn [requested change instructionPointerDiff]
    in Hr |- *; rewrite ?Hcond in *; cbn [strictEq Z.eqb Pos.eqb] in Hr |- *;
    apply add_sub_in_range in Hr as Hx; destruct Hx as (t & Ht & Hsum);
    rewrite Hsum in Hr |- *; exists t;
    (split; [reflexivity|]);
    apply isInAddressRange_spec in Hr as (z & [= <-] & Hz);
    pose proof (get_isInt8 _ _ _ (wf_stack_int8 this Hwf) Ht) as H8;
    unfold isInt8 in H8;
    (split; [lia|]); split; intros Heq;
    (exact Ht || discriminate Heq).
Qed.

Lemma jump_lands_in_lower_half_witness :
  exists target,
    instructionPointer (snd (execute (after [2; 42; 2; 0; 17] 2))) = Num target
    /\ 0 <= target <= 127
    /\ (operations.jump = operations.jump ->
        Private.peek (after [2; 42; 2; 0; 17] 2) 1 = Num target)
    /\ (operations.jump = operations.jumpConditionally ->
        Private.peek (after [2; 42; 2; 0; 17] 2) 2 = Num target).
Proof.
  apply (jump_lands_in_lower_half
           (after [2; 42; 2; 0; 17] 2) _ operations.jump (Num 17)
           (change 1 [] (Num (-4)))).
  - apply wellFormedb_true. vm_compute. reflexivity.
  - vm_compute. reflexivity.
  - left. reflexivity.
Defined.

(** X27. No step writes to the upper half of the memory: the cells from
    address 128 on are after [execute] what they were before, whatever the
    operation, for the address that [store] takes from the stack is an
    8-bit word. *)
Theorem step_keeps_upper_memory (this : machine) (i : nat) :
  wellFormed this ->
  (128 <= i)%nat ->
  memory (snd (execute this)) !! i = memory this !! i.
Proof.
  intros Hwf Hi. rewrite execute_run.
  destruct (decode this) as [o|e]; [|reflexivity].
  destruct (Private.getOperationByName o this) as [c|e] eqn:Hop;
    [|reflexivity].
  cbn [snd]. rewrite requested_shape in Hop.
  destruct (precondition o this) as [[]|e]; cbn [mbind result_bind] in Hop;
    [|discriminate].
  apply defineSafeStateChange_Ok in Hop as (-> & _ & _ & Ha & _).
  unfold committed. cbn [memory].
  destruct (isUndefined (memoryAddressWritten (requested o this))) eqn:Hu;
    [reflexivity|].
  destruct Ha as [Ha|Ha]; [congruence|].
  apply isInAddressRange_spec in Ha as (a & Ha & Hrange).
  assert (Hpeek : Private.peek this 1 = Num a)
    by (destruct o; cbn in Hu, Ha; try discriminate Hu; exact Ha).
  pose proof (get_isInt8 _ _ _ (wf_stack_int8 this Hwf) Hpeek) as H8.
  unfold isInt8 in H8. cbn [negb]. rewrite Ha.
  apply lookup_set_ne. lia.
Qed.

Lemma step_keeps_upper_memory_witness :
  memory (snd (execute (after [2; 77; 2; 9; 4] 2))) !! 200%nat
  = memory (after [2; 77; 2; 9; 4] 2) !! 200%nat.
Proof.
  apply (step_keeps_upper_memory (after [2; 77; 2; 9; 4] 2) 200).
  - apply wellFormedb_true. vm_compute. reflexivity.
  - lia.
Defined.
